(** * VirtualScroller: the virtualization engine of [src/VirtualScroller.ts]

    A shallow embedding of the engine's state and handlers, followed by the
    properties the specification states about them.

    Numbers are [Z]; a JS array is a [list], read through [js_get] (an
    out-of-range read is [None], JS's [undefined]); a handler that can raise
    returns a [completion]; the DOM the engine reads ([scrollTop], the
    rendered item nodes, ...) is a record the environment replaces at every
    animation frame.

    Heights are whole numbers here, where the browser can report fractions
    that the engine adds as doubles.  What is stated below about sums of
    heights is kept to what does not depend on how such sums round: two
    sums are equated only when they add the same terms in the same order,
    and otherwise sums are compared, not equated. *)

From Stdlib Require Import ZArith Lia.
From stdpp Require Import base numbers list strings.

Local Open Scope Z_scope.

(** ** JavaScript arrays *)

Definition len {A} (l : list A) : Z := Z.of_nat (length l).

(** [arr[i]]: [undefined] outside [0 .. length-1]. *)
Definition js_get {A} (l : list A) (i : Z) : option A :=
  if decide (0 <= i) then l !! Z.to_nat i else None.

(** [arr[k] = v] for the write-back of a record into the store.  Inside the
    array it replaces the element; at [k = length] it appends.  Further out
    JS would leave holes, and a negative [k] sets a property that is no
    element: the list is left as it is there.  Every record the engine builds
    carries its own position as [index] (see [aligned]), so the engine's
    write-backs stay inside the array. *)
Definition js_put {A} (k : Z) (v : A) (l : list A) : list A :=
  if decide (0 <= k) then
    if decide (k = len l) then l ++ [v] else <[Z.to_nat k := v]> l
  else l.

(** [arr.slice(s, e)], with JS's treatment of negative bounds. *)
Definition js_slice {A} (s e : Z) (l : list A) : list A :=
  let k := if s <? 0 then Z.max (len l + s) 0 else Z.min s (len l) in
  let fin := if e <? 0 then Z.max (len l + e) 0 else Z.min e (len l) in
  take (Z.to_nat (fin - k)) (drop (Z.to_nat k) l).

(** lodash's [findLastIndex(array, predicate)]: scan from the last element
    down to the first, return the index of the first hit, [-1] if none. *)
Fixpoint scan_down {A} (p : A -> bool) (rl : list A) (i : Z) : Z :=
  match rl with
  | [] => -1
  | x :: rest => if p x then i else scan_down p rest (i - 1)
  end.

Definition findLastIndex {A} (l : list A) (p : A -> bool) : Z :=
  scan_down p (reverse l) (len l - 1).

(** ** Types of the engine *)

Record ScrollerItemMeta (T : Type) := Meta {
  index : Z;
  height : Z;
  data : option T   (* [None] is [undefined], what [items[i]] is out of range *)
}.
Arguments Meta {T} _ _ _.
Arguments index {T} _.
Arguments height {T} _.
Arguments data {T} _.

(** [end] is reserved in Rocq: the field is [end_]. *)
Record ScrollerRange := Range { start : Z; end_ : Z }.

Record ScrollerLoading := Loading { top : Z; loading_height : Z }.

Record ScrollerVisibleItems := Visible { first : Z; last_ : Z }.

(** What the engine reads from and writes to the DOM: [this.element]
    (the inner [.virtual-scroller] box), the [offsetHeight] of each child
    matched by [':scope > .virtual-scroller__item'], in document order, and
    the scroll offset of the host element, which [this.scrollTo] sets. *)
Record Dom := MkDom {
  scrollTop : Z;
  offsetHeight : Z;
  clientHeight : Z;
  nodes : list Z;
  hostScroll : Z * Z
}.

(** A dispatched [CustomEvent]: its type and its [detail]. *)
Record CustomEvent := MkEvent { type : string; detail : option Z }.

Record VirtualScroller (T : Type) := MkScroller {
  items : list T;
  hasMore : bool;
  minHeight : Z;
  itemsMetadata : list (ScrollerItemMeta T);
  attachedRange : ScrollerRange;
  loadingItem : ScrollerLoading;
  isScrolling : bool;
  isReady : bool;
  element : Dom;
  dispatched : list CustomEvent   (* events handed to [dispatchEvent], oldest first *)
}.
Arguments MkScroller {T} _ _ _ _ _ _ _ _ _ _.
Arguments items {T} _.
Arguments hasMore {T} _.
Arguments minHeight {T} _.
Arguments itemsMetadata {T} _.
Arguments attachedRange {T} _.
Arguments loadingItem {T} _.
Arguments isScrolling {T} _.
Arguments isReady {T} _.
Arguments element {T} _.
Arguments dispatched {T} _.

Inductive JsError := TypeError.

(** How a handler ends: normally, or by an exception, with the state the
    engine is left in either way. *)
Inductive completion (S : Type) :=
| Normal (s : S)
| Thrown (e : JsError) (s : S).
Arguments Normal {S} _.
Arguments Thrown {S} _ _.

Definition bind {S} (c : completion S) (k : S -> completion S) : completion S :=
  match c with
  | Normal s => k s
  | Thrown e s => Thrown e s
  end.

Section Engine.
Context {T : Type}.
Implicit Types (st : VirtualScroller T) (m : ScrollerItemMeta T).

(** *** Field assignments *)

Definition set_itemsMetadata (ms : list (ScrollerItemMeta T)) st : VirtualScroller T :=
  MkScroller (items st) (hasMore st) (minHeight st) ms (attachedRange st)
    (loadingItem st) (isScrolling st) (isReady st) (element st) (dispatched st).

Definition set_attachedRange (r : ScrollerRange) st : VirtualScroller T :=
  MkScroller (items st) (hasMore st) (minHeight st) (itemsMetadata st) r
    (loadingItem st) (isScrolling st) (isReady st) (element st) (dispatched st).

Definition set_isScrolling (b : bool) st : VirtualScroller T :=
  MkScroller (items st) (hasMore st) (minHeight st) (itemsMetadata st)
    (attachedRange st) (loadingItem st) b (isReady st) (element st) (dispatched st).

Definition set_element (d : Dom) st : VirtualScroller T :=
  MkScroller (items st) (hasMore st) (minHeight st) (itemsMetadata st)
    (attachedRange st) (loadingItem st) (isScrolling st) (isReady st) d (dispatched st).

Definition set_dispatched (evs : list CustomEvent) st : VirtualScroller T :=
  MkScroller (items st) (hasMore st) (minHeight st) (itemsMetadata st)
    (attachedRange st) (loadingItem st) (isScrolling st) (isReady st) (element st) evs.

(** ** Getters *)

(** [get attached]: the records of the window, paired with their position
    inside the window. *)
Definition attached st : list (Z * ScrollerItemMeta T) :=
  imap (fun i m => (Z.of_nat i, m))
    (js_slice (start (attachedRange st)) (end_ (attachedRange st) + 1) (itemsMetadata st)).

(** [get loading] *)
Definition loading st : bool :=
  hasMore st && (len (items st) - 1 <=? end_ (attachedRange st)).

(** [get _clientHeight] *)
Definition _clientHeight st : Z :=
  fold_left (fun acumulador currentValue => acumulador + height (snd currentValue))
    (attached st) 0.

(** [currentValue.height || this.minHeight] *)
Definition height_or (minH : Z) m : Z :=
  if height m =? 0 then minH else height m.

(** [get _scrollHeight] *)
Definition _scrollHeight st : Z :=
  let itemsHeight :=
    fold_left (fun acumulador currentValue => acumulador + height_or (minHeight st) currentValue)
      (itemsMetadata st) 0 in
  if loading st then itemsHeight + loading_height (loadingItem st) else itemsHeight.

(** [get accumulativeHeight]: the reducer pushes [last(acumulador) + height]
    when [last] is not nil. *)
Definition accumulate (minH : Z) (acumulador : list Z) m : list Z :=
  match last acumulador with
  | Some lastHeight => acumulador ++ [lastHeight + height_or minH m]
  | None => acumulador
  end.

Definition accumulativeHeight st : list Z :=
  fold_left (accumulate (minHeight st)) (itemsMetadata st) [0].

(** ** Methods *)

(** [dispatch(event, data = null)]: the event handed to [dispatchEvent] is
    [new CustomEvent('event', { detail: data ?? undefined })]; its type is
    the literal ['event'], the parameter [event] is not used. *)
Definition dispatch (event : string) (data_ : option Z) st : VirtualScroller T :=
  set_dispatched (dispatched st ++ [MkEvent "event" data_]) st.

(** [resetMetadata] *)
Definition resetMetadata st : VirtualScroller T :=
  set_itemsMetadata
    (imap (fun index_ item => Meta (Z.of_nat index_) 0 (Some item)) (items st))
    (set_attachedRange (Range 0 0) st).

(** The first half of [updateMetadata]: one new record per item the store
    does not cover yet. *)
Definition growMetadata st : VirtualScroller T :=
  let diff := len (items st) - len (itemsMetadata st) in
  if 0 <? diff then
    set_itemsMetadata
      (itemsMetadata st ++
         imap (fun i _ =>
                 Meta (len (itemsMetadata st) + Z.of_nat i) 0
                      (js_get (items st) (len (itemsMetadata st) + Z.of_nat i)))
              (replicate (Z.to_nat diff) tt))
      st
  else st.

(** The [for (let i = start; i <= end; i++)] loop of [updateMetadata], with
    [n] iterations left, over the node list [ns] read before the loop. *)
Fixpoint refresh (n : nat) (i : Z) (ns : list Z) st : completion (VirtualScroller T) :=
  match n with
  | O => Normal st
  | S n' =>
      match js_get ns (i - start (attachedRange st)) with
      | None => Normal st                                   (* if (!node) return *)
      | Some nodeHeight =>
          match js_get (itemsMetadata st) i with
          | None => Thrown TypeError st                     (* meta is undefined *)
          | Some meta =>
              let meta' := Meta (index meta) nodeHeight (js_get (items st) i) in
              refresh n' (i + 1) ns
                (set_itemsMetadata (js_put i meta' (itemsMetadata st)) st)
          end
      end
  end.

(** [updateMetadata].  Registering the nodes with the resize observer leaves
    the engine's state as it is. *)
Definition updateMetadata st : completion (VirtualScroller T) :=
  let st1 := growMetadata st in
  let r := attachedRange st1 in
  if start r =? end_ r then Normal st1
  else refresh (Z.to_nat (end_ r - start r + 1)) (start r) (nodes (element st1)) st1.

(** [fill(start, end)] *)
Definition fill (start end_ : Z) st : completion (VirtualScroller T) :=
  let starRange := Z.max 0 start in
  let endRange := Z.min end_ (Z.max 0 (len (items st) - 1)) in
  let st1 := set_attachedRange (Range starRange endRange) st in
  bind (if len (items st1) =? 0 then Normal st1 else updateMetadata st1)
    (fun st2 =>
       Normal (if (len (items st2) <=? end_) && hasMore st2
               then dispatch "load-more" (Some (len (items st2))) st2
               else st2)).

(** [getVisibleItems] *)
Definition getVisibleItems st : ScrollerVisibleItems :=
  let d := element st in
  Visible
    (findLastIndex (accumulativeHeight st) (fun item => item <=? scrollTop d))
    (findLastIndex (accumulativeHeight st) (fun item => item <=? scrollTop d + offsetHeight d)).

(** [handleScroll], up to its [await this.tick()]: the state it leaves and
    whether a continuation now waits for the next frame. *)
Definition handleScroll_enter st : VirtualScroller T * bool :=
  if isScrolling st then (st, false)
  else (dispatch "scrolled" None (set_isScrolling true st), true).

(** [handleScroll], from the frame on. *)
Definition handleScroll_resume st : completion (VirtualScroller T) :=
  let st1 := set_isScrolling false st in
  let v := getVisibleItems st1 in
  fill (first v) (last_ v) st1.

(** [fillInitial].  [frames k] is the DOM the browser shows once the [k]-th
    call's [await this.tick()] is over; no other handler runs in between.
    The result is how the last call ended and how many calls ran; [None]
    when [fuel] calls were not enough. *)
Fixpoint fillInitial (fuel : nat) (frames : nat -> Dom) (k : nat) st
  : option (completion (VirtualScroller T) * nat) :=
  match fuel with
  | O => None
  | S fuel' =>
      match fill (start (attachedRange st)) (end_ (attachedRange st) + 1) st with
      | Thrown e s => Some (Thrown e s, S k)
      | Normal st1 =>
          let st2 := set_element (frames k) st1 in
          if (len (attached st2) <? len (items st2))
             && (_clientHeight st2 <? clientHeight (element st2))
          then fillInitial fuel' frames (S k) st2
          else Some (Normal st2, S k)
      end
  end.

(** [this.scrollTo(x, y)], on the host element. *)
Definition scrollTo (x y : Z) st : VirtualScroller T :=
  let d := element st in
  set_element (MkDom (scrollTop d) (offsetHeight d) (clientHeight d) (nodes d) (x, y)) st.

(** [updated(properties)], up to its call of [fillInitial]: the state at
    that point and whether [fillInitial] is called.  [changedItems] is
    [properties.has('items')]; the [minHeight] branch only writes a style
    property. *)
Definition updated_enter (changedItems : bool) st : VirtualScroller T * bool :=
  if changedItems
     && (negb (hasMore st) && negb (len (items st) =? len (itemsMetadata st)))
  then (scrollTo 0 0 (resetMetadata st), true)
  else (st, false).

Definition updated (fuel : nat) (frames : nat -> Dom) (changedItems : bool) st
  : option (completion (VirtualScroller T) * nat) :=
  let '(st1, go) := updated_enter changedItems st in
  if go then fillInitial fuel frames 0 st1 else Some (Normal st1, O).

(** The callback of [nodeResizerObserver], for one entry: [index] is
    [Number(entry.target.dataset.index)], [h] is [entry.contentRect.height]. *)
Definition nodeResized (entry : Z * Z) st : completion (VirtualScroller T) :=
  let '(index_, h) := entry in
  if h =? 0 then Normal st
  else match js_get (itemsMetadata st) index_ with
       | None => Thrown TypeError st            (* metadata.height on undefined *)
       | Some metadata =>
           let metadata' := Meta (index metadata) h (data metadata) in
           Normal (set_itemsMetadata
                     (js_put (index metadata') metadata'
                        (js_put index_ metadata' (itemsMetadata st)))
                     st)
       end.

(** [entries.forEach(...)]: an exception ends the whole callback. *)
Fixpoint nodesResized (entries : list (Z * Z)) st : completion (VirtualScroller T) :=
  match entries with
  | [] => Normal st
  | entry :: rest => bind (nodeResized entry st) (nodesResized rest)
  end.

(** ** The scroll pipeline as a transition system

    A configuration is the engine and the number of [handleScroll]
    continuations that wait for a frame. *)
Inductive signal :=
| Scroll                              (* [handleScroll] is invoked *)
| Frame (d : Dom)                     (* a frame is painted; one waiting continuation resumes *)
| Measured (entries : list (Z * Z))   (* the node resize observer fires *)
| Filled (s e : Z)                    (* another handler calls [fill(s, e)] *)
| Painted (d : Dom).                  (* the DOM changes, no handler runs *)

Definition state_of (c : completion (VirtualScroller T)) : VirtualScroller T :=
  match c with Normal s | Thrown _ s => s end.

Definition step (sg : signal) (cfg : VirtualScroller T * nat) : VirtualScroller T * nat :=
  let '(st, waiting) := cfg in
  match sg with
  | Scroll =>
      let '(st', suspended) := handleScroll_enter st in
      (st', if suspended then S waiting else waiting)
  | Frame d =>
      match waiting with
      | O => (set_element d st, O)
      | S w => (state_of (handleScroll_resume (set_element d st)), w)
      end
  | Measured entries => (state_of (nodesResized entries st), waiting)
  | Filled s e => (state_of (fill s e st), waiting)
  | Painted d => (set_element d st, waiting)
  end.

Definition run (sgs : list signal) (cfg : VirtualScroller T * nat) : VirtualScroller T * nat :=
  fold_left (fun c sg => step sg c) sgs cfg.

End Engine.

(** * Vocabulary of the specification *)

Section Vocabulary.
Context {T : Type}.
Implicit Types (st : VirtualScroller T) (m : ScrollerItemMeta T)
  (ms : list (ScrollerItemMeta T)).

(** The store's invariant: the record at position [i] carries [i] as its
    index. *)
Definition aligned ms : Prop :=
  forall (i : nat) m, ms !! i = Some m -> index m = Z.of_nat i.

(** The range [fill start end] attaches. *)
Definition clamp st (s e : Z) : ScrollerRange :=
  Range (Z.max 0 s) (Z.min e (Z.max 0 (len (items st) - 1))).

(** What [fill] makes of the store [g] that [growMetadata] leaves, for the
    attached range [r] and the node list [ns]. *)
Definition refreshed (its : list T) (ns : list Z) (r : ScrollerRange)
    (g ms : list (ScrollerItemMeta T)) : Prop :=
  len ms = len g
  /\ (start r = end_ r -> ms = g)
  /\ (start r <> end_ r ->
      forall j h, start r <= j <= end_ r -> js_get ns (j - start r) = Some h ->
        exists m, js_get g j = Some m
                  /\ js_get ms j = Some (Meta (index m) h (js_get its j)))
  /\ (forall j, j < start r \/ end_ r < j \/ js_get ns (j - start r) = None ->
        js_get ms j = js_get g j).

(** The offsets that follow a running total [a]: one per record. *)
Fixpoint running (minH a : Z) ms : list Z :=
  match ms with
  | [] => []
  | m :: rest => (a + height_or minH m) :: running minH (a + height_or minH m) rest
  end.

(** [r] is the greatest index of [l] whose element satisfies [P], or [-1]
    when no element does. *)
Definition greatest_index (P : Z -> Prop) (l : list Z) (r : Z) : Prop :=
  (r = -1 /\ forall i x, js_get l i = Some x -> ~ P x)
  \/ (exists x, js_get l r = Some x /\ P x
                /\ forall j y, r < j -> js_get l j = Some y -> ~ P y).

(** The specification's bound on the attached range, as it words it: for
    every pair handed to [fill]. *)
Definition fill_range_as_stated st (s e : Z) : Prop :=
  forall st', fill s e st = Normal st' ->
    let r := attachedRange st' in
    0 <= start r /\ start r <= end_ r
    /\ end_ r <= Z.max 0 (len (items st) - 1)
    /\ (items st = [] -> r = Range 0 0).

(** The specification's load-more rule, as it words it: the window has
    reached the last known index and [hasMore] is set. *)
Definition load_more_as_stated st (s e : Z) : Prop :=
  hasMore st = true ->
  forall st', fill s e st = Normal st' ->
    end_ (attachedRange st') = len (items st) - 1 ->
    exists ev, dispatched st' = dispatched st ++ [ev]
               /\ type ev = "load-more"%string
               /\ detail ev = Some (len (items st)).

(** The specification's placeholder rule, as it words it. *)
Definition loading_as_stated st : Prop :=
  loading st = true <->
  hasMore st = true /\ end_ (attachedRange st) = len (items st) - 1.

(** The specification's measurement refresh, as it words it: every index
    of the clamped range that has a rendered node gets that node's height
    and the item as data, also when the range is a single index. *)
Definition fill_refreshes_as_stated st (s e : Z) : Prop :=
  items st <> [] ->
  forall st', fill s e st = Normal st' ->
    forall j h, start (clamp st s e) <= j <= end_ (clamp st s e) ->
      js_get (nodes (element st)) (j - start (clamp st s e)) = Some h ->
      exists m, js_get (itemsMetadata st') j = Some m
                /\ height m = h /\ data m = js_get (items st) j.

(** The specification's rule for a measurement whose index is outside the
    store, as it words it: nothing happens. *)
Definition stray_measurement_as_stated st (i h : Z) : Prop :=
  0 < h -> js_get (itemsMetadata st) i = None ->
  nodesResized [(i, h)] st = Normal st.

(** The specification's rule for a replaced collection of the same length,
    as it words it; the state is the one [updated] has reached when it
    calls, or would call, [fillInitial]. *)
Definition replacement_resets_as_stated st : Prop :=
  hasMore st = false ->
  length (items st) = length (itemsMetadata st) ->
  (exists (i : nat) m, itemsMetadata st !! i = Some m /\ data m <> items st !! i) ->
  let st1 := fst (updated_enter true st) in
  (forall (i : nat) m, itemsMetadata st1 !! i = Some m ->
     index m = Z.of_nat i /\ height m = 0 /\ data m = items st !! i)
  /\ attachedRange st1 = Range 0 0
  /\ hostScroll (element st1) = (0, 0).

(** The specification's termination bound for [fillInitial], as it words
    it: the attached records have non-zero heights, and at most
    [items.length] calls run. *)
Definition fillInitial_terminates_as_stated st (frames : nat -> Dom) : Prop :=
  (forall (i : nat) im, attached st !! i = Some im -> height (snd im) <> 0) ->
  exists fuel c calls,
    fillInitial fuel frames 0 st = Some (c, calls)
    /\ Z.of_nat calls <= len (items st).

(** The invariant of the scroll pipeline: a continuation waits exactly
    while [isScrolling] is set. *)
Definition settled (cfg : VirtualScroller T * nat) : Prop :=
  snd cfg = if isScrolling (fst cfg) then 1%nat else O.

End Vocabulary.

(** ** Engines used as examples *)

Definition blank : Dom := MkDom 0 0 0 [] (0, 0).

(** A freshly constructed element (the field initialisers of the class)
    with the [hasMore] attribute set and no items yet. *)
Definition created_hasMore : VirtualScroller string :=
  MkScroller [] true 50 [] (Range 0 0) (Loading 0 0) false false blank [].

(** The element after [items], [hasMore] and the DOM were set from outside
    and [resetMetadata] ran. *)
Definition loaded (its : list string) (more : bool) (d : Dom) : VirtualScroller string :=
  resetMetadata (MkScroller its more 50 [] (Range 0 0) (Loading 0 0) false false d []).

Definition three : list string := ["a"; "b"; "c"]%string.

Definition ten : list string :=
  ["i0"; "i1"; "i2"; "i3"; "i4"; "i5"; "i6"; "i7"; "i8"; "i9"]%string.

(** Three items measured at 50 each, all attached, shown in a viewport 60
    high; the host was scrolled to 120. *)
Definition shown : VirtualScroller string :=
  MkScroller three false 50
    [Meta 0 50 (Some "a"); Meta 1 50 (Some "b"); Meta 2 50 (Some "c")]%string
    (Range 0 2) (Loading 0 0) false true (MkDom 0 60 60 [50; 50; 50] (0, 120)) [].

(** [shown] after [items] was replaced by three other items. *)
Definition replaced : VirtualScroller string :=
  MkScroller ["x"; "y"; "z"]%string false 50
    [Meta 0 50 (Some "a"); Meta 1 50 (Some "b"); Meta 2 50 (Some "c")]%string
    (Range 0 2) (Loading 0 0) false true (MkDom 0 60 60 [50; 50; 50] (0, 120)) [].

(** A viewport 1000 high that shows the last two of three items. *)
Definition tall : Dom := MkDom 50 1000 1000 [50; 50] (0, 0).

Definition tail_attached : VirtualScroller string :=
  MkScroller three false 50
    [Meta 0 50 (Some "a"); Meta 1 50 (Some "b"); Meta 2 50 (Some "c")]%string
    (Range 1 2) (Loading 0 0) false true tall [].

(** * The rest of the element

    The handlers and getters of [src/VirtualScroller.ts] that the claims do
    not reach: the container's resize observer, the visibility observer,
    [init], the property setters and what [render] computes. *)

(** One [div.virtual-scroller__item] of [renderItems]: the key [repeat]
    uses (the position in the window), the [data-index] attribute, the
    vertical offset put into the [matrix3d] transform ([None] is
    [undefined]) and the payload handed to the item template. *)
Record RenderedItem (T : Type) := MkRendered {
  key : Z;
  dataIndex : Z;
  translateY : option Z;
  payload : option T
}.
Arguments MkRendered {T} _ _ _ _.
Arguments key {T} _.
Arguments dataIndex {T} _.
Arguments translateY {T} _.
Arguments payload {T} _.

Section Element.
Context {T : Type}.
Implicit Types (st : VirtualScroller T) (m : ScrollerItemMeta T)
  (ms : list (ScrollerItemMeta T)).

Definition set_items (its : list T) st : VirtualScroller T :=
  MkScroller its (hasMore st) (minHeight st) (itemsMetadata st) (attachedRange st)
    (loadingItem st) (isScrolling st) (isReady st) (element st) (dispatched st).

Definition set_hasMore (b : bool) st : VirtualScroller T :=
  MkScroller (items st) b (minHeight st) (itemsMetadata st) (attachedRange st)
    (loadingItem st) (isScrolling st) (isReady st) (element st) (dispatched st).

Definition set_minHeight (z : Z) st : VirtualScroller T :=
  MkScroller (items st) (hasMore st) z (itemsMetadata st) (attachedRange st)
    (loadingItem st) (isScrolling st) (isReady st) (element st) (dispatched st).

Definition set_isReady (b : bool) st : VirtualScroller T :=
  MkScroller (items st) (hasMore st) (minHeight st) (itemsMetadata st)
    (attachedRange st) (loadingItem st) (isScrolling st) b (element st) (dispatched st).

(** ** What [render] computes *)

(** [renderItems], without the markup of the item template. *)
Definition renderItems st : list (RenderedItem T) :=
  (fun item : Z * ScrollerItemMeta T =>
     let '(position, meta) := item in
     MkRendered position (index meta)
       (js_get (accumulativeHeight st) (index meta)) (data meta))
  <$> attached st.

(** [renderLoading]: the vertical offset of the placeholder, [None] when
    nothing is rendered. *)
Definition renderLoading st : option Z :=
  if negb (loading st) then None else Some (top (loadingItem st)).

(** The class list [render] gives the scroll box. *)
Definition elementClass st : list string :=
  if isReady st then ["virtual-scroller"; "virtual-scroller--ready"]%string
  else ["virtual-scroller"]%string.

(** ** Handlers *)

(** [init], from its [await this.tick()] on: the listeners and observers it
    installs are the signals below; the state changes by [resetMetadata]. *)
Definition init_resume st : VirtualScroller T := resetMetadata st.

(** [init], up to the tick: whether it goes on at all. *)
Definition init_enter st : bool := negb (isReady st).

(** The callback of [scrollerResizerObserver] for one entry of content
    height [h], on a configuration (the engine and the number of waiting
    [handleScroll] continuations). *)
Definition scrollerResized (h : Z) (cfg : VirtualScroller T * nat)
  : completion (VirtualScroller T * nat) :=
  let '(st, waiting) := cfg in
  match (if negb (h =? 0) && (_scrollHeight st =? 0)
         then updateMetadata st else Normal st) with
  | Thrown e s => Thrown e (s, waiting)
  | Normal st1 =>
      if negb (h =? 0) && negb (h =? _scrollHeight st1)
      then let '(st2, suspended) := handleScroll_enter st1 in
           Normal (st2, if suspended then S waiting else waiting)
      else Normal (st1, waiting)
  end.

(** [entries.forEach(...)] of that observer. *)
Fixpoint scrollersResized (entries : list Z) (cfg : VirtualScroller T * nat)
  : completion (VirtualScroller T * nat) :=
  match entries with
  | [] => Normal cfg
  | h :: rest => bind (scrollerResized h cfg) (scrollersResized rest)
  end.

(** [fillInitial], up to its tick. *)
Definition fillInitial_enter st : completion (VirtualScroller T) :=
  fill (start (attachedRange st)) (end_ (attachedRange st) + 1) st.

(** [fillInitial], from the tick on, the frame showing [d]: it ends, or
    calls [fillInitial] again, which runs up to the next tick. *)
Definition fillInitial_resume (d : Dom) st : completion (VirtualScroller T) :=
  let st2 := set_element d st in
  if (len (attached st2) <? len (items st2))
     && (_clientHeight st2 <? clientHeight (element st2))
  then fillInitial_enter st2
  else Normal st2.

(** [fillInitial] among the other handlers.  [during k] is everything the
    [k]-th call's [await this.tick()] lets happen before [fillInitial] goes
    on: the repaint, and any handlers that run in between.  The result is
    how the last call ended and how many calls ran; [None] when [fuel] calls
    were not enough. *)
Fixpoint fillInitial_among (fuel : nat)
    (during : nat -> VirtualScroller T -> VirtualScroller T) (k : nat) st
  : option (completion (VirtualScroller T) * nat) :=
  match fuel with
  | O => None
  | S fuel' =>
      match fillInitial_enter st with
      | Thrown e s => Some (Thrown e s, S k)
      | Normal st1 =>
          let st2 := during k st1 in
          if (len (attached st2) <? len (items st2))
             && (_clientHeight st2 <? clientHeight (element st2))
          then fillInitial_among fuel' during (S k) st2
          else Some (Normal st2, S k)
      end
  end.

(** The callback of [visibilityObserver]; [targetReady] is whether the
    observed box carries the class [virtual-scroller--ready].  The call of
    [fillInitial] runs up to its tick (an exception in it would reject its
    promise, not end the callback), then [isReady] is set. *)
Definition visibilityChanged (targetReady : bool) st : VirtualScroller T :=
  if targetReady then st
  else set_isReady true (state_of (fillInitial_enter st)).

(** [updated] after [items] was assigned from outside, up to the first
    tick of [fillInitial]. *)
Definition itemsAssigned (its : list T) st : completion (VirtualScroller T) :=
  let '(st1, go) := updated_enter true (set_items its st) in
  if go then fillInitial_enter st1 else Normal st1.

(** ** The element as a transition system

    Everything that can happen to a connected element, one signal per
    handler; a configuration is the engine and the number of waiting
    [handleScroll] continuations. *)
Inductive happening :=
| Connected                                  (* [init] goes on after its tick *)
| ItemsAssigned (its : list T)               (* [items] is set, [updated] runs *)
| HasMoreAssigned (b : bool)                 (* [hasMore] is set *)
| MinHeightAssigned (z : Z)                  (* [minHeight] is set *)
| VisibilityChanged (targetReady : bool)     (* the visibility observer fires *)
| GrowthResumed (d : Dom)                    (* a [fillInitial] goes on after its tick *)
| ScrollHeard                                (* the scroll listener calls [handleScroll] *)
| SettleResumed (d : Dom)                    (* a [handleScroll] goes on after its tick *)
| NodesObserved (entries : list (Z * Z))     (* the node resize observer fires *)
| ContainerObserved (heights : list Z)       (* the container resize observer fires *)
| Repainted (d : Dom).                       (* the DOM changes, no handler runs *)

Definition cfg_of (c : completion (VirtualScroller T * nat)) : VirtualScroller T * nat :=
  match c with Normal s | Thrown _ s => s end.

Definition happen (hp : happening) (cfg : VirtualScroller T * nat)
  : VirtualScroller T * nat :=
  let '(st, waiting) := cfg in
  match hp with
  | Connected => (init_resume st, waiting)
  | ItemsAssigned its => (state_of (itemsAssigned its st), waiting)
  | HasMoreAssigned b => (set_hasMore b st, waiting)
  | MinHeightAssigned z => (set_minHeight z st, waiting)
  | VisibilityChanged targetReady => (visibilityChanged targetReady st, waiting)
  | GrowthResumed d => (state_of (fillInitial_resume d st), waiting)
  | ScrollHeard =>
      let '(st', suspended) := handleScroll_enter st in
      (st', if suspended then S waiting else waiting)
  | SettleResumed d =>
      match waiting with
      | O => (set_element d st, O)
      | S w => (state_of (handleScroll_resume (set_element d st)), w)
      end
  | NodesObserved entries => (state_of (nodesResized entries st), waiting)
  | ContainerObserved heights => cfg_of (scrollersResized heights (st, waiting))
  | Repainted d => (set_element d st, waiting)
  end.

Definition happenings (hps : list happening) (cfg : VirtualScroller T * nat)
  : VirtualScroller T * nat :=
  fold_left (fun c hp => happen hp c) hps cfg.

(** ** Vocabulary *)

(** The sum of [f] over the records. *)
Fixpoint total (f : ScrollerItemMeta T -> Z) ms : Z :=
  match ms with
  | [] => 0
  | m :: rest => f m + total f rest
  end.

(** Every event of the log is of type ['event']. *)
Definition all_typed_event (evs : list CustomEvent) : Prop :=
  forall (i : nat) ev, evs !! i = Some ev -> type ev = "event"%string.

(** The test [fillInitial] makes after its tick: records are left to attach
    and the viewport is not filled. *)
Definition wants_more st : bool :=
  (len (attached st) <? len (items st))
  && (_clientHeight st <? clientHeight (element st)).

(** The engine after [j] calls of [fillInitial], each followed by its tick,
    whether the loop went on that far or not. *)
Fixpoint after_calls (during : nat -> VirtualScroller T -> VirtualScroller T)
    (k j : nat) st : VirtualScroller T :=
  match j with
  | O => st
  | S j' => after_calls during (S k) j' (during k (state_of (fillInitial_enter st)))
  end.

(** Nothing that happens during a tick assigns [items], moves the attached
    range or shortens the store (repaints and measurements do not). *)
Definition leaves_window (during : nat -> VirtualScroller T -> VirtualScroller T) : Prop :=
  forall k s,
    items (during k s) = items s
    /\ attachedRange (during k s) = attachedRange s
    /\ len (itemsMetadata s) <= len (itemsMetadata (during k s)).

(** Nothing that happens during a tick dispatches an event. *)
Definition leaves_log (during : nat -> VirtualScroller T -> VirtualScroller T) : Prop :=
  forall k s, dispatched (during k s) = dispatched s.

(** The specification's description of the offsets, as it words it: for
    every store with one record per item of a non-empty collection. *)
Definition offsets_as_stated st : Prop :=
  length (itemsMetadata st) = length (items st) -> items st <> [] ->
  let offsets := accumulativeHeight st in
  length offsets = S (length (items st))
  /\ offsets !! O = Some 0
  /\ (forall (i : nat) m, itemsMetadata st !! i = Some m ->
        exists a, offsets !! i = Some a
                  /\ offsets !! S i
                     = Some (a + (if height m =? 0 then minHeight st else height m)))
  /\ (forall (i : nat) a b, offsets !! i = Some a -> offsets !! S i = Some b -> a <= b).

(** The window is empty or a single index, or it ends inside the store. *)
Definition covered st : Prop :=
  0 <= start (attachedRange st)
  /\ (end_ (attachedRange st) <= start (attachedRange st)
      \/ end_ (attachedRange st) < len (itemsMetadata st)).

(** What every handler keeps: the records carry their positions and the
    window is covered. *)
Definition sound st : Prop := aligned (itemsMetadata st) /\ covered st.

(** What a handler may do to the placeholder, the ready flag and the event
    log between [st] and [st']: nothing, keep it set, append events of type
    ['event']. *)
Definition grows st st' : Prop :=
  loadingItem st' = loadingItem st
  /\ (isReady st = true -> isReady st' = true)
  /\ exists evs, dispatched st' = dispatched st ++ evs /\ all_typed_event evs.

(** A handler takes [st] to [st']. *)
Definition keeps st st' : Prop := (sound st -> sound st') /\ grows st st'.

End Element.

(** ** More engines and ticks used as examples *)

(** Three unmeasured items with the [minHeight] attribute set to -10. *)
Definition sunk : VirtualScroller string :=
  set_minHeight (-10) (loaded three false blank).

(** Three measured items of which the first is attached, in the viewport
    [tall], which is scrolled to 50. *)
Definition first_attached : VirtualScroller string :=
  MkScroller three false 50
    [Meta 0 50 (Some "a"); Meta 1 50 (Some "b"); Meta 2 50 (Some "c")]%string
    (Range 0 0) (Loading 0 0) false true tall [].

(** Ticks that only repaint [tall]. *)
Definition repaints : nat -> VirtualScroller string -> VirtualScroller string :=
  fun _ s => set_element tall s.

(** The same, but during the first tick a [handleScroll] that was waiting
    goes on. *)
Definition settle_then_repaints : nat -> VirtualScroller string -> VirtualScroller string :=
  fun k s =>
    match k with
    | O => state_of (handleScroll_resume (set_element tall s))
    | S _ => set_element tall s
    end.

(** ** A day in the life of an element, used as an example *)

Definition day : list (@happening string) :=
  [ Connected; ItemsAssigned three; VisibilityChanged false;
    GrowthResumed (MkDom 0 60 60 [50; 50] (0, 0)); ScrollHeard;
    ContainerObserved [300; 0]; ScrollHeard;
    SettleResumed (MkDom 50 60 60 [50; 50; 50] (0, 0));
    NodesObserved [(0, 50); (1, 40)]; HasMoreAssigned true;
    ItemsAssigned ten; ScrollHeard ].

(** * Properties *)

(** ** Arrays *)

Section Arrays.
Context {A : Type}.
Implicit Types (l : list A) (i j k : Z).

Lemma len_nonneg l : 0 <= len l.
Proof. unfold len. lia. Qed.

Lemma js_get_Some_bounds l i x : js_get l i = Some x -> 0 <= i < len l.
Proof.
  unfold js_get, len. case_decide; [|discriminate].
  intros Hx%lookup_lt_Some. lia.
Qed.

Lemma js_get_None l i : js_get l i = None <-> i < 0 \/ len l <= i.
Proof.
  unfold js_get, len. case_decide.
  - rewrite lookup_ge_None. lia.
  - split; [lia | reflexivity].
Qed.

Lemma js_get_in_bounds l i : 0 <= i < len l -> exists x, js_get l i = Some x.
Proof.
  intros Hi. destruct (js_get l i) eqn:E; [eauto|].
  apply js_get_None in E. lia.
Qed.

Lemma js_get_of_nat l (n : nat) : js_get l (Z.of_nat n) = l !! n.
Proof. unfold js_get. case_decide; [|lia]. by rewrite Nat2Z.id. Qed.

Lemma len_put_inside l i v : 0 <= i < len l -> len (js_put i v l) = len l.
Proof.
  intros Hi. unfold js_put. case_decide; [|lia]. case_decide; [lia|].
  unfold len. by rewrite length_insert.
Qed.

Lemma js_get_put_eq l i v : 0 <= i < len l -> js_get (js_put i v l) i = Some v.
Proof.
  intros Hi. unfold js_put, js_get. repeat case_decide; try lia.
  apply list_lookup_insert_eq. unfold len in *. lia.
Qed.

Lemma js_get_put_ne l i j v :
  0 <= i < len l -> i <> j -> js_get (js_put i v l) j = js_get l j.
Proof.
  intros Hi Hne. unfold js_put, js_get. repeat case_decide; try lia; try done.
  apply list_lookup_insert_ne. lia.
Qed.

Lemma js_put_same l i v : js_get l i = Some v -> js_put i v l = l.
Proof.
  intros Hv. pose proof (js_get_Some_bounds _ _ _ Hv) as Hb.
  unfold js_put, js_get in *. repeat case_decide; try lia.
  by apply list_insert_id.
Qed.

End Arrays.

(** ** The metadata store *)

Section MetadataStore.
Context {T : Type}.
Implicit Types (st : VirtualScroller T) (m : ScrollerItemMeta T)
  (ms : list (ScrollerItemMeta T)).

Lemma set_itemsMetadata_id st : set_itemsMetadata (itemsMetadata st) st = st.
Proof. by destruct st. Qed.

(** [growMetadata] only appends: the old records stay, and every item the
    store did not cover gets an unmeasured record at its own position. *)
Lemma growMetadata_spec st :
  exists ms,
    growMetadata st = set_itemsMetadata ms st
    /\ len ms = Z.max (len (items st)) (len (itemsMetadata st))
    /\ (forall j, j < len (itemsMetadata st) ->
          js_get ms j = js_get (itemsMetadata st) j)
    /\ (forall j, len (itemsMetadata st) <= j < len (items st) ->
          js_get ms j = Some (Meta j 0 (js_get (items st) j))).
Proof.
  unfold growMetadata. destruct (Z.ltb_spec 0 (len (items st) - len (itemsMetadata st))) as [Hd|Hd].
  - eexists. split; [reflexivity|]. split; [|split].
    + unfold len in *. rewrite length_app, length_imap, length_replicate. lia.
    + intros j Hj. unfold js_get. case_decide; [|done].
      apply lookup_app_l. unfold len in *. lia.
    + intros j Hj. pose proof (len_nonneg (itemsMetadata st)) as Hn.
      unfold js_get at 1. case_decide; [|lia].
      unfold len in *. rewrite lookup_app_r by lia.
      rewrite list_lookup_imap, lookup_replicate_2 by lia. simpl.
      do 3 f_equal; lia.
  - exists (itemsMetadata st). rewrite set_itemsMetadata_id.
    split; [done|]. split; [lia|]. split; [done|]. intros; lia.
Qed.

(** The loop of [updateMetadata], run over indices that the store covers:
    it does not raise; it rewrites, in order, the records that have a node,
    up to the first index without one, and leaves all others alone. *)
Lemma refresh_spec n : forall i ns st,
  start (attachedRange st) <= i -> 0 <= i ->
  i + Z.of_nat n <= len (itemsMetadata st) ->
  exists ms,
    refresh n i ns st = Normal (set_itemsMetadata ms st)
    /\ len ms = len (itemsMetadata st)
    /\ (forall j h, i <= j < i + Z.of_nat n ->
          js_get ns (j - start (attachedRange st)) = Some h ->
          exists m, js_get (itemsMetadata st) j = Some m
                    /\ js_get ms j = Some (Meta (index m) h (js_get (items st) j)))
    /\ (forall j, j < i \/ i + Z.of_nat n <= j
                  \/ js_get ns (j - start (attachedRange st)) = None ->
          js_get ms j = js_get (itemsMetadata st) j).
Proof.
  induction n as [|n IH]; intros i ns st Hs Hi Hlen.
  - exists (itemsMetadata st). simpl. rewrite set_itemsMetadata_id.
    repeat split; try done. intros; lia.
  - simpl. destruct (js_get ns (i - start (attachedRange st))) as [h0|] eqn:Hnode.
    + destruct (js_get_in_bounds (itemsMetadata st) i) as [m0 Hm0]; [lia|].
      rewrite Hm0.
      set (m' := Meta (index m0) h0 (js_get (items st) i)).
      set (st1 := set_itemsMetadata (js_put i m' (itemsMetadata st)) st).
      assert (Hl1 : len (itemsMetadata st1) = len (itemsMetadata st))
        by (apply len_put_inside; lia).
      destruct (IH (i + 1) ns st1) as (ms & Hrun & Hlen' & Hin & Hout);
        [simpl; lia | lia | lia |].
      exists ms. split; [by rewrite Hrun|]. split; [lia|]. split.
      * intros j h Hj Hh. destruct (decide (j = i)) as [->|Hne].
        -- exists m0. split; [done|].
           rewrite Hout by (left; lia). simpl.
           rewrite js_get_put_eq by lia.
           assert (h = h0) as -> by congruence. done.
        -- destruct (Hin j h) as (m & Hm & Hms); [lia | done |].
           exists m. split; [|done].
           simpl in Hm. rewrite js_get_put_ne in Hm by lia. done.
      * intros j Hj. destruct (decide (j = i)) as [->|Hne].
        -- destruct Hj as [?|[?|Hnone]]; [lia | lia | congruence].
        -- rewrite Hout.
           ++ simpl. apply js_get_put_ne; lia.
           ++ simpl. destruct Hj as [?|[?|?]]; [left; lia | right; left; lia | by right; right].
    + exists (itemsMetadata st). rewrite set_itemsMetadata_id.
      split; [done|]. split; [done|]. split; [|done].
      intros j h Hj Hh. apply js_get_None in Hnode.
      apply js_get_Some_bounds in Hh. lia.
Qed.

End MetadataStore.

(** ** [fill] *)

Section Fill.
Context {T : Type}.
Implicit Types (st : VirtualScroller T) (m : ScrollerItemMeta T)
  (ms : list (ScrollerItemMeta T)).

Lemma growMetadata_set_attachedRange r st :
  growMetadata (set_attachedRange r st) = set_attachedRange r (growMetadata st).
Proof. unfold growMetadata. simpl. by case_match. Qed.

Lemma updateMetadata_in_fill st r :
  0 <= start r -> end_ r < len (items st) ->
  exists ms,
    updateMetadata (set_attachedRange r st)
      = Normal (set_itemsMetadata ms (set_attachedRange r st))
    /\ refreshed (items st) (nodes (element st)) r (itemsMetadata (growMetadata st)) ms.
Proof.
  intros Hs He. unfold updateMetadata.
  rewrite growMetadata_set_attachedRange.
  destruct (growMetadata_spec st) as (g & Hg & Hlen & _). rewrite Hg.
  change (set_attachedRange r (set_itemsMetadata g st))
    with (set_itemsMetadata g (set_attachedRange r st)).
  cbv zeta.
  change (attachedRange (set_itemsMetadata g (set_attachedRange r st))) with r.
  change (element (set_itemsMetadata g (set_attachedRange r st))) with (element st).
  change (itemsMetadata (set_itemsMetadata g st)) with g.
  destruct (Z.eqb_spec (start r) (end_ r)) as [Heq|Hne].
  { exists g. split; [done|]. repeat split; try done; intros; lia. }
  destruct (Z.le_gt_cases (start r) (end_ r)) as [Hle|Hgt].
  - destruct (refresh_spec (Z.to_nat (end_ r - start r + 1)) (start r)
                (nodes (element st)) (set_itemsMetadata g (set_attachedRange r st)))
      as (ms & Hrun & Hl & Hin & Hout); simpl; [lia | lia | lia |].
    exists ms. split; [by rewrite Hrun|].
    split; [done|]. split; [done|]. split.
    + intros _ j h Hj Hh. apply (Hin j h); [lia | done].
    + intros j Hj. apply Hout.
      destruct Hj as [?|[?|?]]; [left; lia | right; left; lia | by right; right].
  - replace (Z.to_nat (end_ r - start r + 1)) with O by lia. simpl.
    exists g. split; [done|]. split; [done|]. split; [done|]. split; [|done].
    intros _ j h Hj. lia.
Qed.

(** [fill] never raises.  It attaches the clamped range, refreshes the store
    when the collection is not empty, and dispatches one event when the
    requested end is past the last index and [hasMore] is set. *)
Lemma fill_spec st s e :
  exists ms,
    fill s e st =
      Normal (let st2 := set_itemsMetadata ms (set_attachedRange (clamp st s e) st) in
              if (len (items st) <=? e) && hasMore st
              then dispatch "load-more" (Some (len (items st))) st2
              else st2)
    /\ (items st = [] -> ms = itemsMetadata st)
    /\ (items st <> [] ->
        refreshed (items st) (nodes (element st)) (clamp st s e)
          (itemsMetadata (growMetadata st)) ms).
Proof.
  unfold fill. change (Range _ _) with (clamp st s e). cbv zeta.
  change (items (set_attachedRange (clamp st s e) st)) with (items st).
  destruct (Z.eqb_spec (len (items st)) 0) as [H0|H0].
  - exists (itemsMetadata st). cbn [bind].
    change (itemsMetadata st)
      with (itemsMetadata (set_attachedRange (clamp st s e) st)) at 1.
    rewrite set_itemsMetadata_id. split; [done|]. split; [done|].
    intros Hne. destruct (items st); [done | discriminate].
  - destruct (updateMetadata_in_fill st (clamp st s e)) as (ms & Hrun & Href).
    { simpl. lia. }
    { simpl. pose proof (len_nonneg (items st)). lia. }
    exists ms. rewrite Hrun. cbn [bind]. split; [done|]. split; [|done].
    intros Hnil. rewrite Hnil in H0. done.
Qed.

(** *** Every handler keeps the store aligned *)

Lemma js_get_aligned ms j m : aligned ms -> js_get ms j = Some m -> index m = j.
Proof.
  unfold js_get. intros Hal. case_decide; [|done].
  intros Hm%Hal. lia.
Qed.

Lemma aligned_js_get ms :
  (forall j m, js_get ms j = Some m -> index m = j) -> aligned ms.
Proof. intros H i m Hm. apply H. by rewrite js_get_of_nat. Qed.

Lemma aligned_resetMetadata st : aligned (itemsMetadata (resetMetadata st)).
Proof.
  intros i m. simpl. rewrite list_lookup_imap.
  destruct (items st !! i); [|done]. by intros [= <-].
Qed.

Lemma aligned_growMetadata st :
  aligned (itemsMetadata st) -> aligned (itemsMetadata (growMetadata st)).
Proof.
  intros Hal. destruct (growMetadata_spec st) as (g & -> & Hlen & Hold & Hnew).
  apply aligned_js_get. intros j m Hm. simpl in Hm.
  destruct (Z.lt_ge_cases j (len (itemsMetadata st))) as [Hlt|Hge].
  - rewrite Hold in Hm by done. by apply (js_get_aligned (itemsMetadata st)).
  - pose proof (js_get_Some_bounds _ _ _ Hm) as Hb.
    rewrite Hnew in Hm by lia. by injection Hm as <-.
Qed.

Lemma aligned_fill st s e :
  aligned (itemsMetadata st) -> aligned (itemsMetadata (state_of (fill s e st))).
Proof.
  intros Hal. destruct (fill_spec st s e) as (ms & -> & Hempty & Href).
  assert (Hms : aligned ms).
  { destruct (items st) as [|x its] eqn:Hits.
    - by rewrite Hempty.
    - destruct Href as (_ & Hsame & Hin & Hout); [done|].
      pose proof (aligned_growMetadata st Hal) as Hg.
      destruct (decide (start (clamp st s e) = end_ (clamp st s e))) as [Heq|Hne].
      { by rewrite Hsame. }
      apply aligned_js_get. intros j m Hm.
      destruct (decide (start (clamp st s e) <= j <= end_ (clamp st s e))) as [Hj|Hj].
      + destruct (js_get (nodes (element st)) (j - start (clamp st s e))) as [h|] eqn:Hnode.
        * destruct (Hin Hne j h Hj Hnode) as (m0 & Hm0 & Hm').
          rewrite Hm' in Hm. injection Hm as <-. simpl.
          by apply (js_get_aligned _ _ _ Hg).
        * rewrite Hout in Hm by auto. by apply (js_get_aligned _ _ _ Hg).
      + rewrite Hout in Hm by lia. by apply (js_get_aligned _ _ _ Hg). }
  simpl. by case_match.
Qed.

Lemma aligned_nodesResized entries : forall st,
  aligned (itemsMetadata st) ->
  aligned (itemsMetadata (state_of (nodesResized entries st))).
Proof.
  induction entries as [|[i h] rest IH]; intros st Hal; [done|].
  simpl. destruct (h =? 0); [by apply IH|].
  destruct (js_get (itemsMetadata st) i) as [m|] eqn:Hm; [|done].
  simpl. apply IH. simpl.
  pose proof (js_get_Some_bounds _ _ _ Hm) as Hb.
  rewrite (js_get_aligned _ _ _ Hal Hm).
  rewrite (js_put_same (js_put i _ _)) by (apply js_get_put_eq; lia).
  apply aligned_js_get. intros j m'.
  destruct (decide (i = j)) as [<-|Hne].
  - rewrite js_get_put_eq by lia. by intros [= <-].
  - rewrite js_get_put_ne by lia. by apply js_get_aligned.
Qed.

End Fill.

(** ** The offset model *)

Section Offsets.
Context {T : Type}.
Implicit Types (st : VirtualScroller T) (m : ScrollerItemMeta T)
  (ms : list (ScrollerItemMeta T)).

(** The accumulator of [accumulativeHeight] starts as [[0]] and is never
    empty, so the reducer pushes at every record. *)
Lemma fold_accumulate minH ms : forall acc a,
  last acc = Some a ->
  fold_left (accumulate minH) ms acc = acc ++ running minH a ms.
Proof.
  induction ms as [|m ms IH]; intros acc a Hlast; simpl.
  - by rewrite app_nil_r.
  - unfold accumulate at 2. rewrite Hlast.
    rewrite (IH _ (a + height_or minH m)) by apply last_snoc.
    by rewrite <- app_assoc.
Qed.

Lemma accumulativeHeight_running st :
  accumulativeHeight st = 0 :: running (minHeight st) 0 (itemsMetadata st).
Proof. unfold accumulativeHeight. by rewrite (fold_accumulate _ _ [0] 0). Qed.

Lemma length_running minH ms : forall a, length (running minH a ms) = length ms.
Proof. induction ms as [|m ms IH]; intros a; simpl; [done | by rewrite IH]. Qed.

(** Each offset is the one before it plus the height of the record in
    between. *)
Lemma running_step minH ms : forall a (i : nat) m,
  ms !! i = Some m ->
  exists b, (a :: running minH a ms) !! i = Some b
            /\ (a :: running minH a ms) !! S i = Some (b + height_or minH m).
Proof.
  induction ms as [|m0 ms IH]; intros a i m Hm; [done|].
  destruct i as [|i]; simpl in *.
  - injection Hm as ->. eauto.
  - apply (IH (a + height_or minH m0)) in Hm. done.
Qed.

End Offsets.

(** ** [findLastIndex] *)

Section FindLastIndex.
Context {A : Type}.
Implicit Types (l : list A) (p : A -> bool).

Lemma findLastIndex_nil p : findLastIndex [] p = -1.
Proof. done. Qed.

Lemma len_snoc l x : len (l ++ [x]) = len l + 1.
Proof. unfold len. rewrite length_app. simpl. lia. Qed.

(** The scan looks at the last element first. *)
Lemma findLastIndex_snoc l x p :
  findLastIndex (l ++ [x]) p = if p x then len l else findLastIndex l p.
Proof.
  unfold findLastIndex. rewrite reverse_snoc, len_snoc. simpl.
  replace (len l + 1 - 1) with (len l) by lia. done.
Qed.

Lemma js_get_snoc l x i :
  js_get (l ++ [x]) i = if decide (i = len l) then Some x else js_get l i.
Proof.
  unfold js_get, len. case_decide as Hi.
  - case_decide as Heq.
    + rewrite Heq, Nat2Z.id. apply list_lookup_middle. done.
    + destruct (decide (Z.to_nat i < length l)%nat) as [Hlt|Hge].
      * by apply lookup_app_l.
      * rewrite !lookup_ge_None_2; [done | lia |].
        rewrite length_app. simpl. lia.
  - case_decide; [lia | done].
Qed.

Lemma findLastIndex_bounds l p : -1 <= findLastIndex l p < len l.
Proof.
  induction l as [|x l IH] using rev_ind.
  - rewrite findLastIndex_nil. unfold len. simpl. lia.
  - rewrite findLastIndex_snoc, len_snoc. case_match; lia.
Qed.

End FindLastIndex.

Lemma findLastIndex_greatest (l : list Z) (p : Z -> bool) :
  greatest_index (fun x => p x = true) l (findLastIndex l p).
Proof.
  induction l as [|x l IH] using rev_ind.
  - left. split; [done|]. intros i y Hy. apply js_get_Some_bounds in Hy.
    unfold len in Hy. simpl in Hy. lia.
  - rewrite findLastIndex_snoc. destruct (p x) eqn:Hpx.
    + right. exists x. rewrite js_get_snoc. case_decide; [|done].
      split; [done|]. split; [done|]. intros j y Hj Hy.
      apply js_get_Some_bounds in Hy. rewrite len_snoc in Hy. lia.
    + destruct IH as [[Hr Hall]|(y & Hy & Hpy & Hafter)].
      * left. split; [done|]. intros i z. rewrite js_get_snoc.
        case_decide; [|by apply Hall]. intros [= <-]. congruence.
      * right. exists y. pose proof (js_get_Some_bounds _ _ _ Hy) as Hb.
        rewrite js_get_snoc. case_decide; [lia|].
        split; [done|]. split; [done|]. intros j z Hj. rewrite js_get_snoc.
        case_decide; [|by apply Hafter]. intros [= <-]. congruence.
Qed.

(** * The claims *)

Section RangeAndSignals.
Context {T : Type}.
Implicit Types (st : VirtualScroller T).

(** What [fill] leaves alone, and the range it stores. *)
Lemma fill_frame st s e :
  exists st',
    fill s e st = Normal st'
    /\ attachedRange st' = clamp st s e
    /\ items st' = items st /\ hasMore st' = hasMore st
    /\ minHeight st' = minHeight st /\ isScrolling st' = isScrolling st
    /\ element st' = element st.
Proof.
  destruct (fill_spec st s e) as (ms & Hrun & _). rewrite Hrun.
  eexists. split; [reflexivity|]. cbv zeta. by case_match.
Qed.

(** C1 (amended).  For a pair [start <= end] with [end >= 0] and [start]
    not past the last index, [fill] returns normally and the range it stores
    satisfies [0 <= start <= end <= max(0, items.length - 1)], and is
    [{0,0}] when the collection is empty. *)
Theorem fill_range_ordered st s e :
  s <= e -> 0 <= e -> s <= Z.max 0 (len (items st) - 1) ->
  exists st',
    fill s e st = Normal st'
    /\ 0 <= start (attachedRange st')
    /\ start (attachedRange st') <= end_ (attachedRange st')
    /\ end_ (attachedRange st') <= Z.max 0 (len (items st) - 1)
    /\ (items st = [] -> attachedRange st' = Range 0 0).
Proof.
  intros Hse He Hs.
  destruct (fill_frame st s e) as (st' & Hrun & Hr & _).
  exists st'. split; [done|]. rewrite Hr. unfold clamp. cbn [start end_].
  split; [lia|]. split; [lia|]. split; [lia|].
  intros Hnil. rewrite Hnil in Hs |- *. change (len (@nil T)) with 0 in *.
  f_equal; lia.
Qed.

(** The lower bound on [start] and the upper bound on [end] need no
    assumption on the pair. *)
Lemma fill_range_clamped st s e st' :
  fill s e st = Normal st' ->
  attachedRange st' = clamp st s e
  /\ 0 <= start (attachedRange st')
  /\ end_ (attachedRange st') <= Z.max 0 (len (items st) - 1).
Proof.
  intros Hrun. destruct (fill_frame st s e) as (st'' & Hrun' & Hr & _).
  assert (st'' = st') as -> by congruence.
  rewrite Hr. unfold clamp. cbn [start end_]. split; [done|]. split; lia.
Qed.


(** Otherwise [fill] dispatches nothing. *)
Lemma fill_silent st s e st' :
  fill s e st = Normal st' ->
  e < len (items st) \/ hasMore st = false ->
  dispatched st' = dispatched st.
Proof.
  intros Hrun Hno. destruct (fill_spec st s e) as (ms & Hrun' & _).
  rewrite Hrun' in Hrun. injection Hrun as <-. cbv zeta.
  destruct Hno as [Hlt| ->].
  - destruct (Z.leb_spec (len (items st)) e); [lia|]. done.
  - by rewrite andb_false_r.
Qed.

(** The event [dispatch] hands over is of type ['event'] whatever name it
    was called with. *)
Lemma dispatch_type (name : string) payload st :
  dispatched (dispatch name payload st) = dispatched st ++ [MkEvent "event" payload].
Proof. done. Qed.

(** C5 (amended).  The placeholder shows exactly when [hasMore] is set and
    the window's end is at or past the last known index; this is equality
    with the last index whenever the end is not past it. *)
Theorem loading_iff st :
  (loading st = true <->
     hasMore st = true /\ len (items st) - 1 <= end_ (attachedRange st))
  /\ (end_ (attachedRange st) <= len (items st) - 1 ->
      (loading st = true <->
         hasMore st = true /\ end_ (attachedRange st) = len (items st) - 1)).
Proof.
  unfold loading. rewrite andb_true_iff, Z.leb_le. split; [done|].
  intros Hle. split; intros [? ?]; split; try done; lia.
Qed.

End RangeAndSignals.

(** C1, witness: a three-item collection, [fill(0, 1)]. *)
Lemma fill_range_ordered_witness :
  exists st',
    fill 0 1 (loaded three false blank) = Normal st'
    /\ 0 <= start (attachedRange st')
    /\ start (attachedRange st') <= end_ (attachedRange st')
    /\ end_ (attachedRange st') <= Z.max 0 (len (items (loaded three false blank)) - 1)
    /\ (items (loaded three false blank) = [] -> attachedRange st' = Range 0 0).
Proof.
  apply (fill_range_ordered (loaded three false blank) 0 1); simpl; lia.
Defined.

(** C1, as stated, fails: [fill(3, 3)] on three items (what a scroll to the
    very bottom asks for) stores [{3, 2}]. *)
Lemma fill_range_counterexample :
  ~ fill_range_as_stated (loaded three false blank) 3 3.
Proof.
  intros H. destruct (H _ eq_refl) as (_ & Hle & _).
  vm_compute in Hle. by apply Hle.
Qed.



(** C5, witness: ten items, [hasMore], the window [{4, 9}]. *)
Lemma loading_iff_witness :
  loading (set_attachedRange (Range 4 9) (loaded ten true blank)) = true.
Proof.
  destruct (loading_iff (set_attachedRange (Range 4 9) (loaded ten true blank)))
    as [_ Hlast].
  apply Hlast; [unfold len; simpl; lia | split; reflexivity].
Defined.

(** C5, as stated, fails on the empty collection: with [hasMore] set the
    placeholder shows, while the window's end, 0, is not [-1]. *)
Lemma loading_counterexample :
  ~ loading_as_stated created_hasMore.
Proof.
  intros [H _]. destruct (H eq_refl) as [_ Hend]. discriminate Hend.
Qed.

Section OffsetModel.
Context {T : Type}.
Implicit Types (st : VirtualScroller T) (m : ScrollerItemMeta T).

(** C2 (amended).  For a store with one record per item: the offsets are
    [items.length + 1] many, start at 0, and each is the one before plus the
    record's height (the default estimate when the height is 0); they never
    decrease when the default estimate and the recorded heights are not
    negative; with item 0 measured at 80, the others unmeasured and a
    default of 50, offset 1 is 80 and offset 2 is 130. *)
Theorem accumulativeHeight_offsets st :
  length (itemsMetadata st) = length (items st) ->
  let offsets := accumulativeHeight st in
  length offsets = S (length (items st))
  /\ offsets !! O = Some 0
  /\ (forall (i : nat) m, itemsMetadata st !! i = Some m ->
        exists a, offsets !! i = Some a
                  /\ offsets !! S i
                     = Some (a + (if height m =? 0 then minHeight st else height m)))
  /\ (0 <= minHeight st ->
      (forall (i : nat) m, itemsMetadata st !! i = Some m -> 0 <= height m) ->
      forall (i j : nat) a b, (i <= j)%nat ->
        offsets !! i = Some a -> offsets !! j = Some b -> a <= b)
  /\ (minHeight st = 50 ->
      (exists m0 m1, itemsMetadata st !! O = Some m0 /\ height m0 = 80
                     /\ itemsMetadata st !! 1%nat = Some m1 /\ height m1 = 0) ->
      offsets !! 1%nat = Some 80 /\ offsets !! 2%nat = Some 130).
Proof.
  intros Hsync offsets. subst offsets.
  rewrite accumulativeHeight_running.
  assert (Hstep : forall (i : nat) m, itemsMetadata st !! i = Some m ->
            exists a, (0 :: running (minHeight st) 0 (itemsMetadata st)) !! i = Some a
              /\ (0 :: running (minHeight st) 0 (itemsMetadata st)) !! S i
                 = Some (a + height_or (minHeight st) m))
    by (intros i m; apply running_step).
  split; [simpl; by rewrite length_running, Hsync|].
  split; [done|]. split; [exact Hstep|]. split.
  - intros Hmin Hheights i j a b Hij. revert b.
    induction Hij as [|j Hij IH]; intros b Ha Hb.
    + assert (a = b) by congruence. lia.
    + destruct (itemsMetadata st !! j) as [m|] eqn:Hm.
      * destruct (Hstep j m Hm) as (c & Hc & Hc').
        assert (b = c + height_or (minHeight st) m) as -> by congruence.
        specialize (IH c Ha Hc). specialize (Hheights j m Hm).
        unfold height_or. case_match; lia.
      * apply lookup_ge_None in Hm. apply lookup_lt_Some in Hb.
        simpl in Hb. rewrite length_running in Hb. lia.
  - intros H50 (m0 & m1 & Hm0 & Hh0 & Hm1 & Hh1).
    destruct (Hstep _ _ Hm0) as (a0 & Ha0 & Ha1).
    destruct (Hstep _ _ Hm1) as (a1 & Ha1' & Ha2).
    simpl in Ha0. injection Ha0 as <-.
    rewrite Ha1 in Ha1'. injection Ha1' as <-.
    rewrite Ha1, Ha2. unfold height_or. rewrite Hh0, Hh1, H50. done.
Qed.

End OffsetModel.

(** C2, witness: three items, item 0 measured at 80 by the resize observer,
    default 50: the offsets are [0, 80, 130, 180], and they never
    decrease. *)
Lemma accumulativeHeight_offsets_witness :
  exists st,
    nodesResized [(0, 80)] (loaded three false blank) = Normal st
    /\ accumulativeHeight st = [0; 80; 130; 180]
    /\ length (accumulativeHeight st) = S (length (items st))
    /\ accumulativeHeight st !! 1%nat = Some 80
    /\ accumulativeHeight st !! 2%nat = Some 130
    /\ (forall (i j : nat) a b, (i <= j)%nat ->
          accumulativeHeight st !! i = Some a ->
          accumulativeHeight st !! j = Some b -> a <= b).
Proof.
  eexists. split; [reflexivity|]. split; [reflexivity|].
  edestruct (accumulativeHeight_offsets
               (state_of (nodesResized [(0, 80)] (loaded three false blank))))
    as (Hlen & _ & _ & Hmono & Hscn).
  - reflexivity.
  - split; [exact Hlen|].
    assert (Hpair : accumulativeHeight
                      (state_of (nodesResized [(0, 80)] (loaded three false blank)))
                      !! 1%nat = Some 80
                    /\ accumulativeHeight
                         (state_of (nodesResized [(0, 80)] (loaded three false blank)))
                         !! 2%nat = Some 130).
    { apply Hscn; [reflexivity|]. eexists _, _. repeat split. }
    destruct Hpair as [H1 H2]. split; [exact H1|]. split; [exact H2|].
    apply Hmono; [simpl; lia|].
    intros i m Hm. destruct i as [|[|[|i]]]; simpl in Hm;
      try injection Hm as <-; simpl; try lia; discriminate.
Defined.

(** C2, as stated, fails: with the [minHeight] attribute at -10 and three
    unmeasured items the offsets are [0, -10, -20, -30]. *)
Lemma offsets_counterexample : ~ offsets_as_stated sunk.
Proof.
  intros H. destruct (H eq_refl ltac:(discriminate)) as (_ & _ & _ & Hmono).
  specialize (Hmono O 0 (-10) eq_refl eq_refl). lia.
Qed.

Section WindowCalculator.
Context {T : Type}.
Implicit Types (st : VirtualScroller T) (m : ScrollerItemMeta T).

(** C7.  [getVisibleItems] returns as [first] the greatest index whose
    offset is at most [scrollTop] and as [last] the greatest index whose
    offset is at most [scrollTop + offsetHeight], each [-1] when there is
    none; for heights [50, 50, 50], [scrollTop] 0 and a viewport of 60 the
    offsets are [0, 50, 100, 150] and the result is [{first: 0, last: 1}]. *)
Theorem getVisibleItems_greatest st :
  let d := element st in
  let offsets := accumulativeHeight st in
  greatest_index (fun x => x <= scrollTop d) offsets (first (getVisibleItems st))
  /\ greatest_index (fun x => x <= scrollTop d + offsetHeight d) offsets
       (last_ (getVisibleItems st))
  /\ (height <$> itemsMetadata st = [50; 50; 50] ->
      scrollTop d = 0 -> offsetHeight d = 60 ->
      offsets = [0; 50; 100; 150] /\ getVisibleItems st = Visible 0 1).
Proof.
  intros d offsets. split; [|split].
  - destruct (findLastIndex_greatest offsets (fun item => item <=? scrollTop d))
      as [[Hr Hall]|(x & Hx & Hpx & Hafter)].
    + left. split; [done|]. intros i x Hx Hle. apply (Hall i x Hx). lia.
    + right. exists x. split; [done|]. split; [lia|].
      intros j y Hj Hy Hle. apply (Hafter j y Hj Hy). lia.
  - destruct (findLastIndex_greatest offsets
                (fun item => item <=? scrollTop d + offsetHeight d))
      as [[Hr Hall]|(x & Hx & Hpx & Hafter)].
    + left. split; [done|]. intros i x Hx Hle. apply (Hall i x Hx). lia.
    + right. exists x. split; [done|]. split; [lia|].
      intros j y Hj Hy Hle. apply (Hafter j y Hj Hy). lia.
  - intros Hh Htop Hview.
    assert (Hoffs : offsets = [0; 50; 100; 150]).
    { subst offsets. rewrite accumulativeHeight_running.
      destruct (itemsMetadata st) as [|m0 [|m1 [|m2 [|m3 ms]]]]; try discriminate.
      simpl in Hh. injection Hh as H0 H1 H2.
      simpl. unfold height_or. rewrite H0, H1, H2. done. }
    split; [done|]. unfold getVisibleItems.
    fold d. fold offsets. rewrite Hoffs, Htop, Hview. done.
Qed.

End WindowCalculator.

(** C7, witness: three items measured at 50 each, [scrollTop] 0, a viewport
    60 high. *)
Lemma getVisibleItems_greatest_witness :
  exists st,
    nodesResized [(0, 50); (1, 50); (2, 50)]
      (loaded three false (MkDom 0 60 60 [] (0, 0))) = Normal st
    /\ accumulativeHeight st = [0; 50; 100; 150]
    /\ getVisibleItems st = Visible 0 1.
Proof.
  eexists. split; [reflexivity|].
  apply (getVisibleItems_greatest
           (state_of (nodesResized [(0, 50); (1, 50); (2, 50)]
                        (loaded three false (MkDom 0 60 60 [] (0, 0)))))); reflexivity.
Defined.

Section Measurements.
Context {T : Type}.
Implicit Types (st : VirtualScroller T) (m : ScrollerItemMeta T).

(** C8 (amended).  On a non-empty collection [fill] first grows the store to
    cover the items.  When the clamped range has [start' <> end'], every
    index of the range that has a rendered node at its position in the
    window gets that node's height and [items[i]] as data; the records
    outside the range, and those from the first index without a node on,
    are left alone.  When [start' = end'] no record is refreshed. *)
Theorem fill_refreshes st s e :
  items st <> [] ->
  let r := clamp st s e in
  let grown := itemsMetadata (growMetadata st) in
  exists st',
    fill s e st = Normal st'
    /\ (start r <> end_ r ->
        forall j h, start r <= j <= end_ r ->
          js_get (nodes (element st)) (j - start r) = Some h ->
          exists m, js_get grown j = Some m
                    /\ js_get (itemsMetadata st') j
                       = Some (Meta (index m) h (js_get (items st) j)))
    /\ (forall j, j < start r \/ end_ r < j
                  \/ js_get (nodes (element st)) (j - start r) = None ->
          js_get (itemsMetadata st') j = js_get grown j)
    /\ (start r = end_ r -> itemsMetadata st' = grown).
Proof.
  intros Hne r grown.
  destruct (fill_spec st s e) as (ms & Hrun & _ & Href).
  destruct (Href Hne) as (_ & Hsame & Hin & Hout).
  eexists. split; [exact Hrun|].
  assert (Hms : itemsMetadata
            (let st2 := set_itemsMetadata ms (set_attachedRange (clamp st s e) st) in
             if (len (items st) <=? e) && hasMore st
             then dispatch "load-more" (Some (len (items st))) st2 else st2) = ms)
    by (cbv zeta; by case_match).
  rewrite Hms. split; [exact Hin|]. split; [exact Hout | exact Hsame].
Qed.

(** C6 (amended).  A measurement with a non-zero height whose index is
    outside the store modifies no record, but it raises a [TypeError], and
    the entries after it in the same callback are dropped. *)
Theorem stray_measurement_throws st (i h : Z) (rest : list (Z * Z)) :
  h <> 0 -> js_get (itemsMetadata st) i = None ->
  nodesResized ((i, h) :: rest) st = Thrown TypeError st.
Proof.
  intros Hh Hnone. simpl. destruct (Z.eqb_spec h 0); [done|].
  by rewrite Hnone.
Qed.

(** A measurement of height 0 is skipped. *)
Lemma zero_measurement_skipped st (i : Z) (rest : list (Z * Z)) :
  nodesResized ((i, 0) :: rest) st = nodesResized rest st.
Proof. done. Qed.

(** A measurement inside the store, on a record that carries its own
    position, overwrites that record's height and nothing else. *)
Lemma measurement_applied st (i h : Z) m :
  h <> 0 -> js_get (itemsMetadata st) i = Some m -> index m = i ->
  nodeResized (i, h) st
  = Normal (set_itemsMetadata
              (<[Z.to_nat i := Meta i h (data m)]> (itemsMetadata st)) st).
Proof.
  intros Hh Hm Hi. unfold nodeResized. destruct (Z.eqb_spec h 0); [done|].
  rewrite Hm. cbn [index]. rewrite Hi.
  pose proof (js_get_Some_bounds _ _ _ Hm) as Hb.
  rewrite (js_put_same (js_put i _ _)) by (apply js_get_put_eq; lia).
  unfold js_put. repeat case_decide; try lia. done.
Qed.

End Measurements.

(** C8, witness: three items, a window of two nodes measured 70 and 80. *)
Lemma fill_refreshes_witness :
  exists st',
    fill 0 1 (loaded three false (MkDom 0 60 300 [70; 80] (0, 0))) = Normal st'
    /\ itemsMetadata st'
       = [Meta 0 70 (Some "a"); Meta 1 80 (Some "b"); Meta 2 0 (Some "c")]%string.
Proof.
  destruct (fill_refreshes (loaded three false (MkDom 0 60 300 [70; 80] (0, 0))) 0 1)
    as (st' & Hrun & _); [discriminate|].
  exists st'. split; [exact Hrun|].
  vm_compute in Hrun. injection Hrun as <-. reflexivity.
Defined.

(** C8, as stated, fails: [fill(0, 0)] with the node of item 0 rendered 70
    high leaves the record of item 0 unmeasured. *)
Lemma fill_refreshes_counterexample :
  ~ fill_refreshes_as_stated (loaded three false (MkDom 0 60 300 [70] (0, 0))) 0 0.
Proof.
  intros H.
  destruct (H ltac:(discriminate) _ eq_refl 0 70) as (m & Hm & Hh & _);
    [vm_compute; split; discriminate | reflexivity |].
  vm_compute in Hm. injection Hm as <-. discriminate Hh.
Qed.

(** C6, witness: index 7 on a store of three records. *)
Lemma stray_measurement_throws_witness :
  nodesResized [(7, 20); (0, 80)] (loaded three false blank)
  = Thrown TypeError (loaded three false blank).
Proof.
  apply (stray_measurement_throws (loaded three false blank) 7 20 [(0, 80)]);
    [lia | reflexivity].
Defined.

(** C6, as stated, fails: the same measurement does not return normally. *)
Lemma stray_measurement_counterexample :
  ~ stray_measurement_as_stated (loaded three false blank) 7 20.
Proof.
  intros H. specialize (H ltac:(lia) eq_refl). discriminate H.
Qed.

Section Replacement.
Context {T : Type}.
Implicit Types (st : VirtualScroller T) (m : ScrollerItemMeta T).

(** C3 (amended).  When [items] was updated, [hasMore] is false and the new
    collection's length differs from the store's, [updated] rebuilds the
    store (one record per item: its position as index, height 0, the item as
    data), resets the attached range to [{0,0}], scrolls the host to
    [(0,0)], and calls [fillInitial] on that state. *)
Theorem updated_resets st :
  hasMore st = false ->
  len (items st) <> len (itemsMetadata st) ->
  exists st1,
    updated_enter true st = (st1, true)
    /\ items st1 = items st
    /\ length (itemsMetadata st1) = length (items st)
    /\ (forall (i : nat) item, items st !! i = Some item ->
          itemsMetadata st1 !! i = Some (Meta (Z.of_nat i) 0 (Some item)))
    /\ attachedRange st1 = Range 0 0
    /\ hostScroll (element st1) = (0, 0)
    /\ (forall fuel frames,
          updated fuel frames true st = fillInitial fuel frames 0 st1).
Proof.
  intros Hmore Hlen. unfold updated, updated_enter. rewrite Hmore.
  destruct (Z.eqb_spec (len (items st)) (len (itemsMetadata st))); [done|].
  eexists. split; [reflexivity|]. split; [done|]. split; [|split].
  - simpl. apply length_imap.
  - intros i item Hitem. simpl. rewrite list_lookup_imap, Hitem. done.
  - done.
Qed.

(** With equal lengths, or with [hasMore] set, [updated] changes nothing
    and does not call [fillInitial]. *)
Lemma updated_keeps st changedItems :
  len (items st) = len (itemsMetadata st) \/ hasMore st = true ->
  updated_enter changedItems st = (st, false)
  /\ forall fuel frames, updated fuel frames changedItems st = Some (Normal st, O).
Proof.
  intros Hkeep. unfold updated.
  assert (Henter : updated_enter changedItems st = (st, false)).
  { unfold updated_enter. destruct Hkeep as [->| ->].
    - rewrite Z.eqb_refl. simpl. by rewrite !andb_false_r.
    - simpl. by rewrite andb_false_r. }
  by rewrite Henter.
Qed.

End Replacement.

(** C3, witness: a fourth item arrives while three are known. *)
Lemma updated_resets_witness :
  exists st1,
    updated_enter true
      (MkScroller ["a"; "b"; "c"; "d"]%string false 50 (itemsMetadata shown)
         (Range 0 2) (Loading 0 0) false true (element shown) []) = (st1, true)
    /\ itemsMetadata st1
       = [Meta 0 0 (Some "a"); Meta 1 0 (Some "b");
          Meta 2 0 (Some "c"); Meta 3 0 (Some "d")]%string
    /\ attachedRange st1 = Range 0 0
    /\ hostScroll (element st1) = (0, 0).
Proof.
  destruct (updated_resets
              (MkScroller ["a"; "b"; "c"; "d"]%string false 50 (itemsMetadata shown)
                 (Range 0 2) (Loading 0 0) false true (element shown) []))
    as (st1 & Hrun & _); [reflexivity | unfold len; simpl; lia |].
  exists st1. split; [exact Hrun|].
  vm_compute in Hrun. injection Hrun as <-. repeat split.
Defined.

(** C3, as stated, fails: after three items were replaced by three others,
    [updated] leaves the store (heights 50, the old data), the range
    [{0,2}] and the scroll offset as they were. *)
Lemma replacement_resets_counterexample : ~ replacement_resets_as_stated replaced.
Proof.
  intros H. destruct H as (Hstore & _ & _); [done | done | |].
  - exists O, (Meta 0 50 (Some "a"%string)). split; [done | discriminate].
  - destruct (Hstore O _ eq_refl) as (_ & Hheight & _). discriminate Hheight.
Qed.

Section ScrollPipeline.
Context {T : Type}.
Implicit Types (st : VirtualScroller T) (cfg : VirtualScroller T * nat).

Lemma fill_isScrolling st s e :
  isScrolling (state_of (fill s e st)) = isScrolling st.
Proof.
  destruct (fill_frame st s e) as (st' & Hrun & _ & _ & _ & _ & Hsc & _).
  by rewrite Hrun.
Qed.

Lemma nodeResized_isScrolling entry st :
  isScrolling (state_of (nodeResized entry st)) = isScrolling st.
Proof.
  destruct entry as [i h]. unfold nodeResized.
  destruct (h =? 0); [done|]. by destruct (js_get (itemsMetadata st) i).
Qed.

Lemma nodesResized_isScrolling entries : forall st,
  isScrolling (state_of (nodesResized entries st)) = isScrolling st.
Proof.
  induction entries as [|entry rest IH]; intros st; [done|]. simpl.
  pose proof (nodeResized_isScrolling entry st) as Hone.
  destruct (nodeResized entry st) as [s1|err s1]; simpl in *.
  - by rewrite IH.
  - done.
Qed.

Lemma step_settled sg cfg : settled cfg -> settled (step sg cfg).
Proof.
  destruct cfg as [st w]. unfold settled. simpl. intros Hw.
  destruct sg as [|d|entries|s e|d]; simpl.
  - unfold handleScroll_enter. destruct (isScrolling st) eqn:Hsc; simpl.
    + by rewrite Hsc.
    + by rewrite Hw.
  - destruct w as [|w]; simpl.
    + done.
    + unfold handleScroll_resume. rewrite fill_isScrolling. simpl.
      destruct (isScrolling st); [lia | discriminate].
  - by rewrite nodesResized_isScrolling.
  - by rewrite fill_isScrolling.
  - done.
Qed.

Lemma run_settled sgs : forall cfg, settled cfg -> settled (run sgs cfg).
Proof.
  induction sgs as [|sg sgs IH]; intros cfg Hcfg; [done|].
  apply IH, step_settled, Hcfg.
Qed.

(** C10.  While [isScrolling] is set, [handleScroll] returns the engine as
    it is (no event, no fill, no field changed) and suspends nothing; and
    from an idle engine, whatever signals arrive (scrolls, frames,
    measurements, fills by other handlers, repaints), at most one settle
    sequence waits for its frame. *)
Theorem handleScroll_reentrancy :
  (forall st, isScrolling st = true -> handleScroll_enter st = (st, false))
  /\ (forall st sgs, isScrolling st = false ->
        (snd (run sgs (st, O)) <= 1)%nat
        /\ (isScrolling (fst (run sgs (st, O))) = true ->
            step Scroll (run sgs (st, O)) = run sgs (st, O))).
Proof.
  split.
  - intros st Hsc. unfold handleScroll_enter. by rewrite Hsc.
  - intros st sgs Hidle.
    assert (Hinv : settled (run sgs (st, O))).
    { apply run_settled. unfold settled. simpl. by rewrite Hidle. }
    unfold settled in Hinv. destruct (run sgs (st, O)) as [st' w]. simpl in *.
    split.
    + rewrite Hinv. case_match; lia.
    + intros Hsc. unfold handleScroll_enter. by rewrite Hsc.
Qed.

End ScrollPipeline.

(** C10, witness: three scroll signals in a row on [shown], a frame, and
    one more: one event per settle sequence, and one sequence waiting. *)
Lemma handleScroll_reentrancy_witness :
  handleScroll_enter (set_isScrolling true shown) = (set_isScrolling true shown, false)
  /\ (snd (run [Scroll; Scroll; Filled 0 1; Scroll; Frame (element shown); Scroll]
              (shown, O)) <= 1)%nat
  /\ length (dispatched (fst (run [Scroll; Scroll; Scroll] (shown, O)))) = 1%nat.
Proof.
  pose proof (@handleScroll_reentrancy string) as [Hnoop Hone].
  split; [apply Hnoop; reflexivity|].
  split; [apply (Hone shown); reflexivity | reflexivity].
Defined.

Section InitialFill.
Context {T : Type}.
Implicit Types (st : VirtualScroller T) (m : ScrollerItemMeta T).

(** A window that starts at 0 and ends inside the store holds [end + 1]
    records. *)
Lemma attached_from_zero st :
  start (attachedRange st) = 0 -> 0 <= end_ (attachedRange st) ->
  end_ (attachedRange st) < len (itemsMetadata st) ->
  len (attached st) = end_ (attachedRange st) + 1.
Proof.
  intros Hs He Hlt. unfold attached, js_slice. rewrite Hs.
  pose proof (len_nonneg (itemsMetadata st)) as Hn.
  destruct (Z.ltb_spec 0 0); [lia|].
  destruct (Z.ltb_spec (end_ (attachedRange st) + 1) 0); [lia|].
  unfold len in *. rewrite length_imap, length_take, length_drop. lia.
Qed.

(** One call of [fill] from [fillInitial], on a window that starts at 0:
    the end moves one index up, or stays on the last index. *)
Lemma fillInitial_call st :
  start (attachedRange st) = 0 -> 0 <= end_ (attachedRange st) ->
  exists st1,
    fill (start (attachedRange st)) (end_ (attachedRange st) + 1) st = Normal st1
    /\ items st1 = items st
    /\ attachedRange st1
       = Range 0 (Z.min (end_ (attachedRange st) + 1) (Z.max 0 (len (items st) - 1)))
    /\ (items st <> [] -> len (items st) <= len (itemsMetadata st1)).
Proof.
  intros Hs He. rewrite Hs.
  destruct (fill_spec st 0 (end_ (attachedRange st) + 1)) as (ms & Hrun & _ & Href).
  eexists. split; [exact Hrun|]. cbv zeta.
  assert (Hgrow : items st <> [] -> len (items st) <= len ms).
  { intros Hne. destruct (Href Hne) as (Hlen & _).
    destruct (growMetadata_spec st) as (g & Hg & Hglen & _).
    rewrite Hg in Hlen. simpl in Hlen. lia. }
  case_match; simpl; (split; [done|]); (split; [done|]); exact Hgrow.
Qed.

(** One call of [fillInitial], once [fill] has returned. *)
Lemma fillInitial_unfold st (frames : nat -> Dom) (k fuel : nat) st1 :
  fill (start (attachedRange st)) (end_ (attachedRange st) + 1) st = Normal st1 ->
  fillInitial (S fuel) frames k st
  = let st2 := set_element (frames k) st1 in
    if (len (attached st2) <? len (items st2))
       && (_clientHeight st2 <? clientHeight (element st2))
    then fillInitial fuel frames (S k) st2
    else Some (Normal st2, S k).
Proof. intros Hfill. cbn [fillInitial]. by rewrite Hfill. Qed.

(** One call of [fillInitial] among other handlers, once [fill] has
    returned. *)
Lemma fillInitial_among_unfold st during (k fuel : nat) st1 :
  fillInitial_enter st = Normal st1 ->
  fillInitial_among (S fuel) during k st
  = if wants_more (during k st1)
    then fillInitial_among fuel during (S k) (during k st1)
    else Some (Normal (during k st1), S k).
Proof. intros Henter. cbn [fillInitial_among]. by rewrite Henter. Qed.

Lemma after_calls_S st during (k j : nat) st1 :
  fillInitial_enter st = Normal st1 ->
  after_calls during k (S j) st = after_calls during (S k) j (during k st1).
Proof. intros Henter. cbn [after_calls]. by rewrite Henter. Qed.

(** Without other handlers in between, this is [fillInitial]. *)
Lemma fillInitial_closed (fuel : nat) (frames : nat -> Dom) : forall (k : nat) st,
  fillInitial fuel frames k st
  = fillInitial_among fuel (fun j s => set_element (frames j) s) k st.
Proof.
  induction fuel as [|fuel IH]; intros k st; [done|].
  cbn [fillInitial fillInitial_among]. unfold fillInitial_enter.
  destruct (fill (start (attachedRange st)) (end_ (attachedRange st) + 1) st);
    [|done].
  cbv zeta. by rewrite IH.
Qed.

(** Only the ticks from the current one on matter. *)
Lemma fillInitial_among_ext (fuel : nat) during during' : forall (k : nat) st,
  (forall j s, (k <= j)%nat -> during j s = during' j s) ->
  fillInitial_among fuel during k st = fillInitial_among fuel during' k st.
Proof.
  induction fuel as [|fuel IH]; intros k st Hsame; [done|].
  cbn [fillInitial_among]. destruct (fillInitial_enter st) as [st1|err st1]; [|done].
  cbv zeta. rewrite (Hsame k st1) by lia.
  rewrite (IH (S k)) by (intros j s Hj; apply Hsame; lia). done.
Qed.

Lemma fillInitial_among_bounded (n : nat) : forall during (k : nat) st,
  leaves_window during ->
  start (attachedRange st) = 0 -> 0 <= end_ (attachedRange st) ->
  len (items st) - 1 - end_ (attachedRange st) <= Z.of_nat n ->
  exists calls : nat,
    (1 <= calls)%nat
    /\ Z.of_nat calls <= Z.max 1 (len (items st) - 1 - end_ (attachedRange st))
    /\ (forall fuel, (calls <= fuel)%nat ->
          fillInitial_among fuel during k st
          = Some (Normal (after_calls during k calls st), (k + calls)%nat))
    /\ wants_more (after_calls during k calls st) = false
    /\ (forall j : nat, (1 <= j < calls)%nat ->
          wants_more (after_calls during k j st) = true)
    /\ items (after_calls during k calls st) = items st
    /\ attachedRange (after_calls during k calls st)
       = Range 0 (Z.min (end_ (attachedRange st) + Z.of_nat calls)
                        (Z.max 0 (len (items st) - 1))).
Proof.
  induction n as [|n IH]; intros during k st Hquiet Hs He Hn.
  all: destruct (fillInitial_call st Hs He) as (st1 & Hfill & Hitems & Hrange & Hgrow).
  all: change (fillInitial_enter st = Normal st1) in Hfill.
  all: pose proof (fun fuel => fillInitial_among_unfold st during k fuel st1 Hfill)
         as Hunfold.
  all: pose proof (fun j => after_calls_S st during k j st1 Hfill) as Hafter.
  all: destruct (Hquiet k st1) as (Hqi & Hqr & Hql).
  all: set (st2 := during k st1) in *.
  all: assert (Hit2 : items st2 = items st) by congruence.
  all: assert (Hr2 : attachedRange st2
         = Range 0 (Z.min (end_ (attachedRange st) + 1) (Z.max 0 (len (items st) - 1))))
         by congruence.
  all: assert (Hm2 : items st <> [] -> len (items st) <= len (itemsMetadata st2))
         by (intros Hne; specialize (Hgrow Hne); lia).
  all: clearbody st2; clear Hfill Hitems Hrange Hgrow Hqi Hqr Hql.
  all: destruct (wants_more st2) eqn:Hcond.
  2, 4: exists 1%nat; rewrite (Hafter O); cbn [after_calls];
        split; [lia|]; split; [lia|]; split;
          [ intros [|fuel] Hfuel; [lia|]; rewrite Hunfold; do 2 f_equal; lia
          | split; [done|]; split; [intros j Hj; lia|]; split; [done|];
            rewrite Hr2; do 2 f_equal; lia ].
  all: pose proof Hcond as Hcond'.
  all: apply andb_true_iff in Hcond' as [Hshort Hlow]; apply Z.ltb_lt in Hshort.
  all: rewrite Hit2 in Hshort.
  all: assert (Hne : items st <> [])
         by (intros Hnil; rewrite Hnil in Hshort;
             pose proof (len_nonneg (attached st2)); unfold len in *; simpl in *; lia).
  all: specialize (Hm2 Hne).
  all: pose proof (len_nonneg (attached st2)) as Hatt0.
  all: assert (Hatt : len (attached st2) = end_ (attachedRange st2) + 1)
         by (apply (attached_from_zero st2); rewrite Hr2; simpl; lia).
  all: rewrite Hr2 in Hatt; simpl in Hatt.
  - lia.
  - destruct (IH during (S k) st2 Hquiet)
      as (calls & H1 & Hle & Hrun & Hstop & Hbefore & Hit & Hr).
    + by rewrite Hr2.
    + rewrite Hr2. simpl. lia.
    + rewrite Hr2, Hit2. simpl. lia.
    + rewrite Hr2, Hit2 in Hle, Hr. simpl in Hle, Hr. rewrite Hit2 in Hit.
      exists (S calls). rewrite (Hafter calls).
      split; [lia|]. split; [lia|]. split; [|split; [done|split; [|split]]].
      * intros [|fuel] Hfuel; [lia|]. rewrite Hunfold.
        rewrite Hrun by lia. do 2 f_equal. lia.
      * intros [|[|j]] Hj; [lia | |].
        -- rewrite (Hafter O). cbn [after_calls]. done.
        -- rewrite (Hafter (S j)). apply Hbefore. lia.
      * done.
      * rewrite Hr. do 2 f_equal; lia.
Qed.


End InitialFill.


(** With the window [{1, 2}] of three items in a viewport 1000 high, every
    call of [fillInitial] leaves the engine as it is and calls again. *)
Lemma tail_attached_loops (fuel : nat) : forall k,
  fillInitial fuel (fun _ => tall) k tail_attached = None.
Proof.
  induction fuel as [|fuel IH]; intros k; [done|].
  cbn [fillInitial].
  replace (fill (start (attachedRange tail_attached))
             (end_ (attachedRange tail_attached) + 1) tail_attached)
    with (Normal tail_attached) by reflexivity.
  change (set_element tall tail_attached) with tail_attached.
  replace ((len (attached tail_attached) <? len (items tail_attached))
           && (_clientHeight tail_attached <? clientHeight (element tail_attached)))
    with true by reflexivity.
  apply IH.
Qed.

(** The condition on the ticks is needed.  Entered on the window [{0, 0}]
    of three measured items, with a [handleScroll] that goes on during the
    first tick and moves the window to [{1, 2}], [fillInitial] never
    returns. *)
Lemma settle_between_ticks_loops (fuel : nat) :
  fillInitial_among fuel settle_then_repaints 0 first_attached = None.
Proof.
  destruct fuel as [|fuel]; [done|].
  rewrite (fillInitial_among_unfold first_attached settle_then_repaints O fuel
             (state_of (fillInitial_enter first_attached)) eq_refl).
  replace (settle_then_repaints 0 (state_of (fillInitial_enter first_attached)))
    with tail_attached by reflexivity.
  replace (wants_more tail_attached) with true by reflexivity.
  rewrite (fillInitial_among_ext fuel settle_then_repaints
             (fun j s => set_element ((fun _ => tall) j) s))
    by (intros [|j] s Hj; [lia | reflexivity]).
  rewrite <- fillInitial_closed. apply tail_attached_loops.
Qed.


(** * Further properties of the element *)

(** ** Totals and offsets *)

Section Totals.
Context {T : Type}.
Implicit Types (st : VirtualScroller T) (m : ScrollerItemMeta T)
  (ms : list (ScrollerItemMeta T)) (f : ScrollerItemMeta T -> Z).

Lemma total_app f ms1 ms2 : total f (ms1 ++ ms2) = total f ms1 + total f ms2.
Proof. induction ms1 as [|m ms1 IH]; simpl; [done | rewrite IH; lia]. Qed.

Lemma fold_left_total f ms : forall a,
  fold_left (fun acumulador currentValue => acumulador + f currentValue) ms a
  = a + total f ms.
Proof.
  induction ms as [|m ms IH]; intros a; simpl; [lia|]. rewrite IH. lia.
Qed.

Lemma take_plus_drop {A} (l : list A) : forall (s n : nat),
  take (s + n) l = take s l ++ take n (drop s l).
Proof.
  induction l as [|x l IH]; intros [|s] n; simpl; try done.
  - by rewrite take_nil.
  - by rewrite IH.
Qed.

(** The [k]-th offset is the total of the effective heights of the first
    [k] records. *)
Lemma running_lookup minH ms : forall a (k : nat),
  (k <= length ms)%nat ->
  (a :: running minH a ms) !! k = Some (a + total (height_or minH) (take k ms)).
Proof.
  induction ms as [|m ms IH]; intros a k Hk.
  - replace k with O by (simpl in Hk; lia). simpl. f_equal. lia.
  - destruct k as [|k]; simpl.
    + f_equal. lia.
    + rewrite (IH (a + height_or minH m) k) by (simpl in Hk; lia).
      f_equal. lia.
Qed.

Lemma offset_lookup st (k : nat) :
  (k <= length (itemsMetadata st))%nat ->
  accumulativeHeight st !! k
  = Some (total (height_or (minHeight st)) (take k (itemsMetadata st))).
Proof.
  intros Hk. by rewrite accumulativeHeight_running, running_lookup.
Qed.

Lemma length_offsets st :
  length (accumulativeHeight st) = S (length (itemsMetadata st)).
Proof. rewrite accumulativeHeight_running. simpl. by rewrite length_running. Qed.

Lemma last_offset st :
  last (accumulativeHeight st)
  = Some (total (height_or (minHeight st)) (itemsMetadata st)).
Proof.
  rewrite last_lookup, length_offsets. simpl.
  rewrite offset_lookup by done. by rewrite firstn_all.
Qed.

(** The getter [attached] slices the store; its positions count from 0. *)
Lemma clientHeight_total st :
  _clientHeight st
  = total height (js_slice (start (attachedRange st)) (end_ (attachedRange st) + 1)
                    (itemsMetadata st)).
Proof.
  unfold _clientHeight, attached.
  generalize (js_slice (start (attachedRange st)) (end_ (attachedRange st) + 1)
                (itemsMetadata st)) as l.
  intros l.
  assert (Hgen : forall (g : nat -> Z) a,
            fold_left (fun acumulador (currentValue : Z * ScrollerItemMeta T) =>
                         acumulador + height (snd currentValue))
              (imap (fun i m => (g i, m)) l) a = a + total height l).
  { induction l as [|m l IH]; intros g a; simpl; [lia|].
    rewrite (IH (fun i => g (S i))). lia. }
  by rewrite (Hgen (fun i => Z.of_nat i) 0).
Qed.

(** A slice with bounds inside the store. *)
Lemma js_slice_inside {A} (l : list A) (s e : Z) :
  0 <= s -> s <= e -> e <= len l ->
  js_slice s e l = take (Z.to_nat (e - s)) (drop (Z.to_nat s) l).
Proof.
  intros Hs Hse He. unfold js_slice.
  destruct (Z.ltb_spec s 0); [lia|]. destruct (Z.ltb_spec e 0); [lia|].
  do 2 f_equal; lia.
Qed.

(** X1.  The height the scroll placeholder is put at is the last offset,
    plus the placeholder's own height while the loading placeholder
    shows. *)
Theorem scrollHeight_last_offset st :
  exists bottom,
    last (accumulativeHeight st) = Some bottom
    /\ _scrollHeight st
       = if loading st then bottom + loading_height (loadingItem st) else bottom.
Proof.
  exists (total (height_or (minHeight st)) (itemsMetadata st)).
  split; [apply last_offset|].
  unfold _scrollHeight. by rewrite fold_left_total, Z.add_0_l.
Qed.

(** X2.  For a window that starts at 0 and ends inside the store, the
    height [fillInitial] compares with the viewport counts measured heights
    only: it is the offset that follows the window's last record when every
    attached record is measured, and at most that offset when the default
    estimate is not negative. *)
Theorem clientHeight_span st :
  start (attachedRange st) = 0 ->
  0 <= end_ (attachedRange st) + 1 <= len (itemsMetadata st) ->
  exists b,
    js_get (accumulativeHeight st) (end_ (attachedRange st) + 1) = Some b
    /\ (0 <= minHeight st -> _clientHeight st <= b)
    /\ ((forall i m, 0 <= i <= end_ (attachedRange st) ->
           js_get (itemsMetadata st) i = Some m -> height m <> 0) ->
        _clientHeight st = b).
Proof.
  intros Hs He. rewrite clientHeight_total, Hs.
  set (e := end_ (attachedRange st)) in *. set (ms := itemsMetadata st) in *.
  exists (total (height_or (minHeight st)) (take (Z.to_nat (e + 1)) ms)).
  unfold len in He.
  split.
  - replace (e + 1) with (Z.of_nat (Z.to_nat (e + 1))) at 1 by lia.
    rewrite js_get_of_nat. apply offset_lookup. fold ms. lia.
  - rewrite js_slice_inside by (unfold len; lia).
    replace (Z.to_nat (e + 1 - 0)) with (Z.to_nat (e + 1)) by lia.
    change (Z.to_nat 0) with O. rewrite drop_0.
    assert (Hslice : forall (k : nat) m,
              take (Z.to_nat (e + 1)) ms !! k = Some m ->
              0 <= Z.of_nat k <= e /\ js_get ms (Z.of_nat k) = Some m).
    { intros k m Hk. pose proof (lookup_lt_Some _ _ _ Hk) as Hlt.
      rewrite length_take in Hlt.
      rewrite lookup_take_lt in Hk by lia.
      split; [lia|]. by rewrite js_get_of_nat. }
    revert Hslice.
    generalize (take (Z.to_nat (e + 1)) ms) as w.
    intros w Hw. split.
    + intros Hmin. clear Hw. induction w as [|m w IH]; simpl; [lia|].
      assert (height m <= height_or (minHeight st) m)
        by (unfold height_or; case_match; lia).
      lia.
    + intros Hmeasured.
      assert (Hall : forall (k : nat) m, w !! k = Some m -> height m <> 0).
      { intros k m Hk. destruct (Hw k m Hk) as [Hr Hm]. by apply (Hmeasured _ m Hr). }
      clear Hw Hmeasured. induction w as [|m w IH]; simpl; [done|].
      rewrite IH by (intros k m' Hk; apply (Hall (S k) m' Hk)).
      unfold height_or. pose proof (Hall O m eq_refl).
      destruct (Z.eqb_spec (height m) 0); [done | lia].
Qed.

End Totals.

(** ** The window and what is rendered *)

Section Window.
Context {T : Type}.
Implicit Types (st : VirtualScroller T) (m : ScrollerItemMeta T)
  (ms : list (ScrollerItemMeta T)).

(** With bounds that are not negative, the slice holds the elements
    [s .. e-1] that exist. *)
Lemma js_slice_lookup {A} (l : list A) (s e : Z) (k : nat) :
  0 <= s -> 0 <= e ->
  js_slice s e l !! k
  = if decide (s + Z.of_nat k < e) then js_get l (s + Z.of_nat k) else None.
Proof.
  intros Hs He. unfold js_slice, js_get, len.
  destruct (Z.ltb_spec s 0); [lia|]. destruct (Z.ltb_spec e 0); [lia|].
  rewrite lookup_take, lookup_drop.
  repeat case_decide; try lia; try done;
    first [ f_equal; lia
          | apply lookup_ge_None; lia
          | symmetry; apply lookup_ge_None; lia ].
Qed.

Lemma attached_lookup st (k : nat) :
  0 <= start (attachedRange st) -> 0 <= end_ (attachedRange st) + 1 ->
  attached st !! k
  = if decide (start (attachedRange st) + Z.of_nat k <= end_ (attachedRange st))
    then (fun m => (Z.of_nat k, m))
           <$> js_get (itemsMetadata st) (start (attachedRange st) + Z.of_nat k)
    else None.
Proof.
  intros Hs He. unfold attached.
  rewrite list_lookup_imap, js_slice_lookup by done.
  repeat case_decide; try lia; done.
Qed.


End Window.

(** ** The window calculator *)

Section Calculator.
Context {T : Type}.
Implicit Types (st : VirtualScroller T) (m : ScrollerItemMeta T)
  (ms : list (ScrollerItemMeta T)).

(** A weaker predicate is found at least as far up. *)
Lemma findLastIndex_mono {A} (l : list A) (p q : A -> bool) :
  (forall x, p x = true -> q x = true) ->
  findLastIndex l p <= findLastIndex l q.
Proof.
  intros Hpq. induction l as [|x l IH] using rev_ind; [done|].
  rewrite !findLastIndex_snoc. destruct (p x) eqn:Hp.
  - by rewrite (Hpq x Hp).
  - destruct (q x); [|done]. pose proof (findLastIndex_bounds l p). lia.
Qed.

(** The last index is found exactly when the last element satisfies the
    predicate. *)
Lemma findLastIndex_last {A} (l : list A) (p : A -> bool) x :
  last l = Some x ->
  (findLastIndex l p = len l - 1 <-> p x = true).
Proof.
  intros Hlast. apply last_Some in Hlast as [l' ->].
  rewrite findLastIndex_snoc, len_snoc.
  pose proof (findLastIndex_bounds l' p). destruct (p x); split; try done; lia.
Qed.

Lemma len_offsets st : len (accumulativeHeight st) = len (itemsMetadata st) + 1.
Proof. unfold len. rewrite length_offsets. lia. Qed.

Lemma first_offset st : js_get (accumulativeHeight st) 0 = Some 0.
Proof. by rewrite accumulativeHeight_running. Qed.

(** Offsets never decrease when no effective height is negative. *)
Lemma offsets_monotone st (i j : Z) a b :
  (forall (k : nat) m, itemsMetadata st !! k = Some m ->
     0 <= height_or (minHeight st) m) ->
  i <= j ->
  js_get (accumulativeHeight st) i = Some a ->
  js_get (accumulativeHeight st) j = Some b ->
  a <= b.
Proof.
  intros Hpos Hij Ha Hb.
  pose proof (js_get_Some_bounds _ _ _ Ha) as Hia.
  pose proof (js_get_Some_bounds _ _ _ Hb) as Hjb.
  rewrite len_offsets in Hia, Hjb. unfold len in Hia, Hjb.
  replace i with (Z.of_nat (Z.to_nat i)) in Ha by lia.
  replace j with (Z.of_nat (Z.to_nat j)) in Hb by lia.
  rewrite js_get_of_nat, offset_lookup in Ha, Hb by lia.
  injection Ha as <-. injection Hb as <-.
  replace (Z.to_nat j) with (Z.to_nat i + (Z.to_nat j - Z.to_nat i))%nat by lia.
  rewrite take_plus_drop, total_app.
  assert (Hw : forall (k : nat) m,
            take (Z.to_nat j - Z.to_nat i) (drop (Z.to_nat i) (itemsMetadata st)) !! k
            = Some m -> 0 <= height_or (minHeight st) m).
  { intros k m Hk. pose proof (lookup_lt_Some _ _ _ Hk) as Hlt.
    rewrite length_take in Hlt.
    rewrite lookup_take_lt, lookup_drop in Hk by lia. by apply Hpos in Hk. }
  revert Hw.
  generalize (take (Z.to_nat j - Z.to_nat i) (drop (Z.to_nat i) (itemsMetadata st))) as w.
  intros w Hw.
  assert (0 <= total (height_or (minHeight st)) w); [|lia].
  induction w as [|m w IH]; simpl; [lia|].
  pose proof (Hw O m eq_refl).
  assert (0 <= total (height_or (minHeight st)) w)
    by (apply IH; intros k m' Hk; apply (Hw (S k) m' Hk)).
  lia.
Qed.

(** The order and the bounds of the two indices. *)
Lemma visible_indices_bounds st :
  -1 <= first (getVisibleItems st) <= len (itemsMetadata st)
  /\ -1 <= last_ (getVisibleItems st) <= len (itemsMetadata st)
  /\ (0 <= scrollTop (element st) -> 0 <= first (getVisibleItems st))
  /\ (0 <= offsetHeight (element st) ->
      first (getVisibleItems st) <= last_ (getVisibleItems st)).
Proof.
  unfold getVisibleItems. cbn [first last_].
  pose proof (findLastIndex_bounds (accumulativeHeight st)
                (fun item => item <=? scrollTop (element st))) as Hb1.
  pose proof (findLastIndex_bounds (accumulativeHeight st)
                (fun item => item <=? scrollTop (element st) + offsetHeight (element st)))
    as Hb2.
  rewrite len_offsets in Hb1, Hb2.
  split; [lia|]. split; [lia|]. split.
  - intros Htop.
    destruct (findLastIndex_greatest (accumulativeHeight st)
                (fun item => item <=? scrollTop (element st)))
      as [[_ Hall]|(x & Hx & _)].
    + exfalso. apply (Hall 0 0 (first_offset st)). by apply Z.leb_le.
    + apply js_get_Some_bounds in Hx. lia.
  - intros Hview. apply findLastIndex_mono. intros x Hx.
    apply Z.leb_le in Hx. apply Z.leb_le. lia.
Qed.

(** X4.  The two indices [getVisibleItems] returns lie between [-1] and the
    number of records; [first] is not negative when [scrollTop] is not, and
    [first <= last] when the viewport's height is not negative. *)
Theorem getVisibleItems_ordered st :
  0 <= scrollTop (element st) -> 0 <= offsetHeight (element st) ->
  0 <= first (getVisibleItems st)
  /\ first (getVisibleItems st) <= last_ (getVisibleItems st)
  /\ last_ (getVisibleItems st) <= len (itemsMetadata st).
Proof.
  intros Htop Hview.
  destruct (visible_indices_bounds st) as (_ & Hl & Hf0 & Hfl).
  split; [by apply Hf0|]. split; [by apply Hfl | lia].
Qed.

(** X5.  When no effective height is negative, the offsets that are at
    most [scrollTop] are exactly those at the indices up to [first]: the
    scan from the end finds what a binary search would. *)
Theorem first_splits_offsets st (i : Z) x :
  (forall (k : nat) m, itemsMetadata st !! k = Some m ->
     0 <= height_or (minHeight st) m) ->
  js_get (accumulativeHeight st) i = Some x ->
  (x <= scrollTop (element st) <-> i <= first (getVisibleItems st)).
Proof.
  intros Hpos Hx. unfold getVisibleItems. cbn [first].
  destruct (findLastIndex_greatest (accumulativeHeight st)
              (fun item => item <=? scrollTop (element st)))
    as [[Hr Hall]|(y & Hy & Hpy & Hafter)].
  - rewrite Hr. pose proof (js_get_Some_bounds _ _ _ Hx). split; [|lia].
    intros Hle. exfalso. apply (Hall i x Hx). by apply Z.leb_le.
  - apply Z.leb_le in Hpy. split.
    + intros Hle.
      destruct (Z.le_gt_cases i
                  (findLastIndex (accumulativeHeight st)
                     (fun item => item <=? scrollTop (element st)))) as [|Hgt]; [done|].
      exfalso. apply (Hafter i x); [lia | done | by apply Z.leb_le].
    + intros Hle. pose proof (offsets_monotone st _ _ _ _ Hpos Hle Hx Hy). lia.
Qed.

End Calculator.

(** ** A settle cycle *)

Section Settle.
Context {T : Type}.
Implicit Types (st : VirtualScroller T) (m : ScrollerItemMeta T)
  (ms : list (ScrollerItemMeta T)).

Lemma js_get_ext {A} (l1 l2 : list A) :
  (forall j, js_get l1 j = js_get l2 j) -> l1 = l2.
Proof.
  intros H. apply list_eq. intros i. by rewrite <- !js_get_of_nat.
Qed.

(** The store covers the collection: [growMetadata] has nothing to add. *)
Lemma growMetadata_covered st :
  len (items st) <= len (itemsMetadata st) -> growMetadata st = st.
Proof.
  intros Hle. unfold growMetadata.
  destruct (Z.ltb_spec 0 (len (items st) - len (itemsMetadata st))); [lia | done].
Qed.

(** [handleScroll], from the frame on, in terms of [fill]. *)
Lemma handleScroll_resume_spec st :
  let v := getVisibleItems st in
  exists ms,
    handleScroll_resume st =
      Normal (let st2 := set_itemsMetadata ms
                           (set_attachedRange (clamp st (first v) (last_ v))
                              (set_isScrolling false st)) in
              if (len (items st) <=? last_ v) && hasMore st
              then dispatch "load-more" (Some (len (items st))) st2
              else st2).
Proof.
  intros v. unfold handleScroll_resume.
  change (getVisibleItems (set_isScrolling false st)) with v.
  destruct (fill_spec (set_isScrolling false st) (first v) (last_ v)) as (ms & Hrun & _).
  exists ms. exact Hrun.
Qed.

(** X6.  With one record per item, a settle cycle asks for more data
    exactly when [hasMore] is set and the viewport's lower edge,
    [scrollTop + offsetHeight], has reached the last offset; the event it
    then dispatches carries [items.length]; [isScrolling] is cleared either
    way. *)
Theorem settle_requests_more st :
  len (itemsMetadata st) = len (items st) ->
  exists st' bottom,
    handleScroll_resume st = Normal st'
    /\ last (accumulativeHeight st) = Some bottom
    /\ isScrolling st' = false
    /\ dispatched st'
       = dispatched st ++
         (if hasMore st
             && (bottom <=? scrollTop (element st) + offsetHeight (element st))
          then [MkEvent "event" (Some (len (items st)))] else []).
Proof.
  intros Hsync.
  destruct (handleScroll_resume_spec st) as (ms & Hrun). cbv zeta in Hrun.
  pose proof (last_offset st) as Hlast.
  eexists _, _. split; [exact Hrun|]. split; [exact Hlast|].
  pose proof (findLastIndex_last (accumulativeHeight st)
                (fun item => item <=? scrollTop (element st) + offsetHeight (element st))
                _ Hlast) as Hiff.
  pose proof (findLastIndex_bounds (accumulativeHeight st)
                (fun item => item <=? scrollTop (element st) + offsetHeight (element st)))
    as Hb.
  rewrite len_offsets, Hsync in Hiff, Hb.
  unfold getVisibleItems. cbn [last_].
  set (l := findLastIndex (accumulativeHeight st)
              (fun item => item <=? scrollTop (element st) + offsetHeight (element st)))
    in *.
  set (reached := total (height_or (minHeight st)) (itemsMetadata st)
                  <=? scrollTop (element st) + offsetHeight (element st)) in *.
  assert (Hcond : (len (items st) <=? l) = reached).
  { destruct reached.
    - apply Z.leb_le. destruct Hiff as [_ Hiff]. specialize (Hiff eq_refl). lia.
    - apply Z.leb_gt. destruct (Z.le_gt_cases (len (items st)) l) as [Hle|]; [|done].
      destruct Hiff as [Hiff _]. assert (reached' : false = true) by (apply Hiff; lia).
      discriminate. }
  rewrite Hcond, andb_comm.
  destruct (hasMore st && reached); simpl; [done|]. by rewrite app_nil_r.
Qed.

(** The same with what [fill] makes of a store that covers the
    collection. *)
Lemma handleScroll_resume_store st :
  let v := getVisibleItems st in
  len (items st) <= len (itemsMetadata st) -> items st <> [] ->
  exists ms,
    handleScroll_resume st =
      Normal (let st2 := set_itemsMetadata ms
                           (set_attachedRange (clamp st (first v) (last_ v))
                              (set_isScrolling false st)) in
              if (len (items st) <=? last_ v) && hasMore st
              then dispatch "load-more" (Some (len (items st))) st2
              else st2)
    /\ refreshed (items st) (nodes (element st)) (clamp st (first v) (last_ v))
         (itemsMetadata st) ms.
Proof.
  intros v Hcov Hne. unfold handleScroll_resume.
  change (getVisibleItems (set_isScrolling false st)) with v.
  destruct (fill_spec (set_isScrolling false st) (first v) (last_ v))
    as (ms & Hrun & _ & Href).
  exists ms. split; [exact Hrun|]. specialize (Href Hne).
  rewrite growMetadata_covered in Href by exact Hcov. exact Href.
Qed.

(** X7.  With one record per item, a [scrollTop] that is not negative and
    lies before the last offset, and a viewport height that is not
    negative, a settle cycle attaches a window [0 <= start <= end <=
    items.length - 1] that starts at the item holding the scroll position
    by the offsets the cycle read, those of the heights as they were before
    [fill] refreshed the attached records: [offsets[start] <= scrollTop <
    offsets[start + 1]].  The refresh writes to no record before [start],
    so [offsets[start]] is the same afterwards and the first attached item
    still begins at or before the scroll position; the offset after it is
    re-measured and may end up at or before [scrollTop]. *)
Theorem settle_window st bottom :
  len (itemsMetadata st) = len (items st) ->
  0 <= scrollTop (element st) -> 0 <= offsetHeight (element st) ->
  last (accumulativeHeight st) = Some bottom ->
  scrollTop (element st) < bottom ->
  exists st' top_ next,
    handleScroll_resume st = Normal st'
    /\ 0 <= start (attachedRange st')
    /\ start (attachedRange st') <= end_ (attachedRange st')
    /\ end_ (attachedRange st') <= len (items st) - 1
    /\ js_get (accumulativeHeight st) (start (attachedRange st')) = Some top_
    /\ js_get (accumulativeHeight st) (start (attachedRange st') + 1) = Some next
    /\ top_ <= scrollTop (element st) < next
    /\ js_get (accumulativeHeight st') (start (attachedRange st')) = Some top_.
Proof.
  intros Hsync Htop Hview Hlast Hbefore.
  assert (Hne : items st <> []).
  { intros Hnil. rewrite Hnil in Hsync. rewrite last_offset in Hlast.
    destruct (itemsMetadata st); [|discriminate Hsync].
    simpl in Hlast. injection Hlast as <-. lia. }
  destruct (handleScroll_resume_store st) as (ms & Hrun & Hlen & _ & _ & Hout);
    [lia | done |].
  cbv zeta in Hrun.
  destruct (visible_indices_bounds st) as (Hf & Hl & Hf0 & Hfl).
  specialize (Hf0 Htop). specialize (Hfl Hview).
  pose proof (findLastIndex_last (accumulativeHeight st)
                (fun item => item <=? scrollTop (element st)) _ Hlast) as Hiff.
  rewrite len_offsets, Hsync in Hiff. rewrite Hsync in Hf, Hl.
  change (findLastIndex (accumulativeHeight st)
            (fun item => item <=? scrollTop (element st)))
    with (first (getVisibleItems st)) in Hiff.
  set (v := getVisibleItems st) in *.
  assert (Hfirst : first v <= len (items st) - 1).
  { destruct (Z.le_gt_cases (first v) (len (items st) - 1)) as [|Hgt]; [done|].
    destruct Hiff as [Hiff _].
    assert (Hreach : (bottom <=? scrollTop (element st)) = true) by (apply Hiff; lia).
    apply Z.leb_le in Hreach. lia. }
  match type of Hrun with _ = Normal ?s => set (st' := s) in * end.
  assert (Hrange : attachedRange st'
                   = Range (first v) (Z.min (last_ v) (len (items st) - 1))).
  { subst st'. unfold clamp.
    case_match;
      cbn [attachedRange dispatch set_dispatched set_itemsMetadata set_attachedRange
             set_isScrolling items];
      f_equal; lia. }
  assert (Hstore : itemsMetadata st' = ms /\ minHeight st' = minHeight st)
    by (subst st'; by case_match).
  destruct Hstore as [Hms Hmin].
  destruct (findLastIndex_greatest (accumulativeHeight st)
              (fun item => item <=? scrollTop (element st)))
    as [[Hr _]|(x & Hx & Hpx & Hafter)].
  { change (first v = -1) in Hr. lia. }
  change (js_get (accumulativeHeight st) (first v) = Some x) in Hx.
  destruct (js_get_in_bounds (accumulativeHeight st) (first v + 1)) as [y Hy].
  { rewrite len_offsets, Hsync. lia. }
  exists st', x, y. split; [exact Hrun|]. rewrite Hrange. cbn [start end_].
  split; [lia|]. split; [lia|]. split; [lia|]. split; [done|]. split; [done|].
  apply Z.leb_le in Hpx. split; [split; [done|]|].
  - destruct (Z.le_gt_cases y (scrollTop (element st))) as [Hle|]; [|done].
    exfalso.
    apply (Hafter (first v + 1) y);
      [unfold v, getVisibleItems; cbn [first]; lia | done | by apply Z.leb_le].
  - unfold len in Hsync, Hlen, Hfirst.
    replace (first v) with (Z.of_nat (Z.to_nat (first v))) in Hx |- * at 1 by lia.
    rewrite js_get_of_nat in Hx |- *.
    rewrite offset_lookup in Hx by lia.
    rewrite offset_lookup by (rewrite Hms; lia).
    rewrite Hms, Hmin, <- Hx. do 2 f_equal.
    apply list_eq. intros j. destruct (decide (j < Z.to_nat (first v))%nat).
    + rewrite !lookup_take_lt by done. rewrite <- !js_get_of_nat.
      apply Hout. left. cbn [clamp start]. lia.
    + by rewrite !lookup_take_ge by lia.
Qed.

End Settle.

(** ** [fill] again, measurements, a fresh store *)

Section Store.
Context {T : Type}.
Implicit Types (st : VirtualScroller T) (m : ScrollerItemMeta T)
  (ms : list (ScrollerItemMeta T)).

(** X8.  A second [fill] with the same arguments, the DOM unchanged, leaves
    the range, the store and the offsets as the first one left them, and
    dispatches again what the first one dispatched. *)
Theorem fill_twice st s e :
  exists st1 st2 evs,
    fill s e st = Normal st1
    /\ fill s e st1 = Normal st2
    /\ attachedRange st2 = attachedRange st1
    /\ itemsMetadata st2 = itemsMetadata st1
    /\ accumulativeHeight st2 = accumulativeHeight st1
    /\ dispatched st1 = dispatched st ++ evs
    /\ dispatched st2 = dispatched st1 ++ evs.
Proof.
  destruct (fill_spec st s e) as (ms1 & Hrun1 & Hempty1 & Href1).
  match type of Hrun1 with _ = Normal ?x => set (st1 := x) in * end.
  assert (Hframe : items st1 = items st /\ hasMore st1 = hasMore st
                   /\ element st1 = element st /\ itemsMetadata st1 = ms1
                   /\ attachedRange st1 = clamp st s e
                   /\ minHeight st1 = minHeight st).
  { subst st1. cbv zeta. by case_match. }
  destruct Hframe as (Hit & Hmore & Hel & Hms1 & Hr1 & Hmin).
  destruct (fill_spec st1 s e) as (ms2 & Hrun2 & Hempty2 & Href2).
  match type of Hrun2 with _ = Normal ?x => set (st2 := x) in * end.
  assert (Hclamp : clamp st1 s e = clamp st s e) by (unfold clamp; by rewrite Hit).
  assert (Hsame : ms2 = ms1).
  { destruct (items st) as [|x its] eqn:Hits.
    - rewrite Hempty2 by (by rewrite Hit). done.
    - destruct Href1 as (Hlen1 & Hsame1 & Hin1 & Hout1); [done|].
      destruct Href2 as (Hlen2 & Hsame2 & Hin2 & Hout2); [by rewrite Hit|].
      rewrite Hclamp, Hit, Hel in *.
      assert (Hg : growMetadata st1 = st1).
      { apply growMetadata_covered. rewrite Hms1, Hlen1, Hit.
        destruct (growMetadata_spec st) as (g & -> & Hglen & _). simpl.
        rewrite Hits in Hglen. lia. }
      rewrite Hg, Hms1 in *.
      destruct (decide (start (clamp st s e) = end_ (clamp st s e))) as [Heq|Hne].
      { by apply Hsame2. }
      apply js_get_ext. intros j.
      destruct (decide (start (clamp st s e) <= j <= end_ (clamp st s e))) as [Hj|Hj].
      + destruct (js_get (nodes (element st)) (j - start (clamp st s e)))
          as [h|] eqn:Hnode.
        * destruct (Hin1 Hne j h Hj Hnode) as (m & Hm & Hm1).
          destruct (Hin2 Hne j h Hj Hnode) as (m' & Hm' & Hm2).
          rewrite Hm1 in Hm'. injection Hm' as <-. by rewrite Hm2, Hm1.
        * apply Hout2. auto.
      + apply Hout2. lia. }
  assert (Hframe2 : itemsMetadata st2 = ms2 /\ attachedRange st2 = clamp st1 s e
                    /\ minHeight st2 = minHeight st1).
  { subst st2. cbv zeta. by case_match. }
  destruct Hframe2 as (Hms2 & Hr2 & Hmin2).
  exists st1, st2,
    (if (len (items st) <=? e) && hasMore st
     then [MkEvent "event" (Some (len (items st)))] else []).
  split; [done|]. split; [done|].
  split; [by rewrite Hr2, Hr1, Hclamp|].
  split; [by rewrite Hms2, Hms1|].
  split; [unfold accumulativeHeight; by rewrite Hms2, Hms1, Hsame, Hmin2|].
  split.
  - unfold st1. cbv zeta.
    destruct ((len (items st) <=? e) && hasMore st);
      cbn [dispatched dispatch set_dispatched set_itemsMetadata set_attachedRange];
      [done | by rewrite app_nil_r].
  - unfold st2. cbv zeta. rewrite Hit, Hmore.
    destruct ((len (items st) <=? e) && hasMore st);
      cbn [dispatched dispatch set_dispatched set_itemsMetadata set_attachedRange];
      [done | by rewrite app_nil_r].
Qed.

Lemma total_insert (f : ScrollerItemMeta T -> Z) ms (i : nat) m m' :
  ms !! i = Some m ->
  total f (<[i := m']> ms) = total f ms - f m + f m'.
Proof.
  revert i. induction ms as [|m0 ms IH]; intros [|i] Hm; simpl in *; try done.
  - injection Hm as ->. lia.
  - rewrite (IH i Hm). lia.
Qed.

(** X9.  A measurement [h <> 0] for a record [i] that carries its own
    position leaves the offsets up to [i] as they are, and moves no offset
    after [i] against the change: none gets smaller when [h] is at least
    the height the record counted for before, none gets larger when [h] is
    at most that height. *)
Theorem measurement_moves_offsets st (i h : Z) m (k : Z) x :
  h <> 0 -> js_get (itemsMetadata st) i = Some m -> index m = i ->
  js_get (accumulativeHeight st) k = Some x ->
  exists st' x',
    nodesResized [(i, h)] st = Normal st'
    /\ js_get (accumulativeHeight st') k = Some x'
    /\ (k <= i -> x' = x)
    /\ (height_or (minHeight st) m <= h -> x <= x')
    /\ (h <= height_or (minHeight st) m -> x' <= x).
Proof.
  intros Hh Hm Hindex Hx.
  pose proof (measurement_applied st i h m Hh Hm Hindex) as Hrun.
  eexists. exists (if decide (k <= i) then x else x + (h - height_or (minHeight st) m)).
  split; [cbn [nodesResized]; rewrite Hrun; reflexivity|].
  split; [|case_decide; repeat split; intros; lia].
  pose proof (js_get_Some_bounds _ _ _ Hm) as Hi.
  pose proof (js_get_Some_bounds _ _ _ Hx) as Hk.
  rewrite len_offsets in Hk. unfold len in Hi, Hk.
  replace k with (Z.of_nat (Z.to_nat k)) in Hx |- * at 1 by lia.
  rewrite js_get_of_nat in Hx |- *.
  rewrite offset_lookup in Hx by lia. injection Hx as <-.
  rewrite offset_lookup by (simpl; rewrite length_insert; lia).
  cbn [itemsMetadata set_itemsMetadata minHeight]. f_equal.
  rewrite take_insert. unfold js_get in Hm. case_decide; [|lia].
  repeat case_decide; try lia; try done.
  rewrite (total_insert _ _ _ m) by (rewrite lookup_take_lt by lia; done).
  assert (Hnew : height_or (minHeight st) (Meta i h (data m)) = h).
  { unfold height_or. cbn [height]. by destruct (Z.eqb_spec h 0). }
  rewrite Hnew. lia.
Qed.

(** X10.  After [resetMetadata] every item counts for the default
    estimate: each offset up to the one at [items.length] is the one before
    it plus [minHeight]. *)
Theorem resetMetadata_offsets st (k x : Z) :
  0 <= k < len (items st) ->
  js_get (accumulativeHeight (resetMetadata st)) k = Some x ->
  js_get (accumulativeHeight (resetMetadata st)) (k + 1) = Some (x + minHeight st).
Proof.
  intros Hk Hx. unfold len in Hk.
  assert (Hlen : length (itemsMetadata (resetMetadata st)) = length (items st))
    by (simpl; by rewrite length_imap).
  replace k with (Z.of_nat (Z.to_nat k)) in Hx by lia.
  replace (k + 1) with (Z.of_nat (S (Z.to_nat k))) by lia.
  rewrite js_get_of_nat in Hx |- *.
  rewrite offset_lookup in Hx by lia. injection Hx as <-.
  rewrite offset_lookup by lia. f_equal.
  destruct (lookup_lt_is_Some_2 (itemsMetadata (resetMetadata st)) (Z.to_nat k))
    as [m Hm]; [lia|].
  rewrite (take_S_r _ _ _ Hm), total_app.
  assert (Hdefault : height_or (minHeight (resetMetadata st)) m = minHeight st).
  { simpl in Hm. rewrite list_lookup_imap in Hm.
    destruct (items st !! Z.to_nat k); [|done]. by injection Hm as <-. }
  change (total (height_or (minHeight (resetMetadata st))) [m])
    with (height_or (minHeight (resetMetadata st)) m + 0).
  rewrite Hdefault. simpl. lia.
Qed.

End Store.

(** ** The initial fill and the request for more data *)

Section Quiet.
Context {T : Type}.
Implicit Types (st : VirtualScroller T).

(** While the loop goes on, no call of [fillInitial] dispatches, as long as
    what happens during the ticks does not either. *)
Lemma after_calls_quiet (during : nat -> VirtualScroller T -> VirtualScroller T) :
  leaves_window during -> leaves_log during ->
  forall (j k : nat) st,
    start (attachedRange st) = 0 -> 0 <= end_ (attachedRange st) ->
    end_ (attachedRange st) + 2 <= len (items st) ->
    (forall i : nat, (1 <= i < j)%nat ->
       wants_more (after_calls during k i st) = true) ->
    dispatched (after_calls during k j st) = dispatched st.
Proof.
  intros Hwin Hlog. induction j as [|j IH]; intros k st Hs He Hroom Hbefore; [done|].
  destruct (fillInitial_call st Hs He) as (st1 & Hfill & Hitems & Hrange & Hgrow).
  assert (Hd1 : dispatched st1 = dispatched st)
    by (apply (fill_silent _ _ _ _ Hfill); left; lia).
  change (fillInitial_enter st = Normal st1) in Hfill.
  pose proof (fun j => after_calls_S st during k j st1 Hfill) as Hafter.
  rewrite Hafter.
  destruct (Hwin k st1) as (Hqi & Hqr & Hql). pose proof (Hlog k st1) as Hqd.
  destruct j as [|j]; [cbn [after_calls]; congruence|].
  pose proof (Hbefore 1%nat ltac:(lia)) as Hw.
  rewrite (Hafter O) in Hw. cbn [after_calls] in Hw.
  set (st2 := during k st1) in *.
  assert (Hne : items st <> []).
  { intros Hnil. rewrite Hnil in Hroom. unfold len in Hroom. simpl in Hroom. lia. }
  specialize (Hgrow Hne).
  assert (Hr2 : attachedRange st2
          = Range 0 (Z.min (end_ (attachedRange st) + 1) (Z.max 0 (len (items st) - 1))))
    by congruence.
  assert (Hatt : len (attached st2) = end_ (attachedRange st2) + 1)
    by (apply (attached_from_zero st2); rewrite Hr2; cbn [start end_]; lia).
  unfold wants_more in Hw. apply andb_true_iff in Hw as [Hshort _].
  apply Z.ltb_lt in Hshort.
  rewrite Hatt, Hqi, Hitems, Hr2 in Hshort. cbn [end_] in Hshort.
  rewrite IH; [congruence | by rewrite Hr2 | rewrite Hr2; cbn [end_]; lia | | ].
  - rewrite Hr2, Hqi, Hitems. cbn [end_]. lia.
  - intros i Hi. rewrite <- (Hafter i). apply Hbefore. lia.
Qed.

(** X11.  Entered on a window [{0, end}] that leaves at least one item
    unattached after the next one, as after [resetMetadata] on two items or
    more, and as long as nothing that happens during its ticks assigns
    [items], moves the attached range, shortens the store or dispatches,
    [fillInitial] terminates without dispatching anything: the initial
    fill itself never asks for more data, whether [hasMore] is set and the
    viewport is filled or not. *)
Theorem fillInitial_never_requests st
    (during : nat -> VirtualScroller T -> VirtualScroller T) :
  leaves_window during -> leaves_log during ->
  start (attachedRange st) = 0 -> 0 <= end_ (attachedRange st) ->
  end_ (attachedRange st) + 2 <= len (items st) ->
  exists calls : nat,
    (forall fuel, (calls <= fuel)%nat ->
       fillInitial_among fuel during 0 st
       = Some (Normal (after_calls during 0 calls st), calls))
    /\ dispatched (after_calls during 0 calls st) = dispatched st.
Proof.
  intros Hwin Hlog Hs He Hroom.
  destruct (fillInitial_among_bounded
              (Z.to_nat (len (items st) - 1 - end_ (attachedRange st))) during O st)
    as (calls & _ & _ & Hrun & _ & Hbefore & _); [done | done | done | lia |].
  exists calls. split; [exact Hrun|].
  by apply after_calls_quiet.
Qed.

End Quiet.

(** ** What every handler keeps *)

Section Shapes.
Context {T : Type}.
Implicit Types (st : VirtualScroller T) (m : ScrollerItemMeta T)
  (ms : list (ScrollerItemMeta T)).

Lemma len_put_ge {A} (k : Z) (v : A) (l : list A) : len l <= len (js_put k v l).
Proof.
  unfold js_put, len. repeat case_decide; try lia.
  - rewrite length_app. simpl. lia.
  - rewrite length_insert. lia.
Qed.

Lemma aligned_put ms (i : Z) m m' :
  aligned ms -> js_get ms i = Some m -> index m' = i -> aligned (js_put i m' ms).
Proof.
  intros Hal Hm Hi. pose proof (js_get_Some_bounds _ _ _ Hm) as Hb.
  apply aligned_js_get. intros j mj.
  destruct (decide (i = j)) as [<-|Hne].
  - rewrite js_get_put_eq by lia. by intros [= <-].
  - rewrite js_get_put_ne by lia. by apply js_get_aligned.
Qed.

(** The loop of [updateMetadata] writes to the store only, record by
    record, whether it ends normally or not. *)
Lemma refresh_shape (n : nat) : forall i ns st,
  exists ms',
    state_of (refresh n i ns st) = set_itemsMetadata ms' st
    /\ len ms' = len (itemsMetadata st)
    /\ (aligned (itemsMetadata st) -> aligned ms').
Proof.
  induction n as [|n IH]; intros i ns st.
  - exists (itemsMetadata st). simpl. by rewrite set_itemsMetadata_id.
  - cbn [refresh]. destruct (js_get ns (i - start (attachedRange st))) as [h|].
    2:{ exists (itemsMetadata st). simpl. by rewrite set_itemsMetadata_id. }
    destruct (js_get (itemsMetadata st) i) as [m|] eqn:Hm.
    2:{ exists (itemsMetadata st). simpl. by rewrite set_itemsMetadata_id. }
    pose proof (js_get_Some_bounds _ _ _ Hm) as Hb.
    set (m' := Meta (index m) h (js_get (items st) i)).
    destruct (IH (i + 1) ns (set_itemsMetadata (js_put i m' (itemsMetadata st)) st))
      as (ms' & Hrun & Hlen & Hal).
    exists ms'. split; [by rewrite Hrun|]. split.
    + rewrite Hlen. simpl. by apply len_put_inside.
    + intros Halst. apply Hal. simpl.
      apply (aligned_put _ _ m); [done | done |].
      simpl. by apply (js_get_aligned _ _ _ Halst).
Qed.

Lemma updateMetadata_shape st :
  exists ms',
    state_of (updateMetadata st) = set_itemsMetadata ms' st
    /\ len ms' = Z.max (len (items st)) (len (itemsMetadata st))
    /\ (aligned (itemsMetadata st) -> aligned ms').
Proof.
  unfold updateMetadata.
  pose proof (aligned_growMetadata st) as Halg.
  destruct (growMetadata_spec st) as (g & Hg & Hlen & _). rewrite Hg in *.
  cbv zeta. cbn [attachedRange set_itemsMetadata element itemsMetadata] in *.
  destruct (start (attachedRange st) =? end_ (attachedRange st)).
  - exists g. by split.
  - destruct (refresh_shape
                (Z.to_nat (end_ (attachedRange st) - start (attachedRange st) + 1))
                (start (attachedRange st)) (nodes (element st))
                (set_itemsMetadata g st)) as (ms' & Hrun & Hl & Hal).
    exists ms'. split; [by rewrite Hrun|]. split; [by rewrite Hl|].
    intros Halst. by apply Hal, Halg.
Qed.

(** On a covered window [updateMetadata] does not raise. *)
Lemma updateMetadata_covered st :
  covered st -> exists st', updateMetadata st = Normal st'.
Proof.
  intros [Hs Hc]. unfold updateMetadata.
  destruct (growMetadata_spec st) as (g & Hg & Hlen & _). rewrite Hg.
  cbv zeta. cbn [attachedRange set_itemsMetadata element].
  destruct (Z.eqb_spec (start (attachedRange st)) (end_ (attachedRange st)));
    [by eexists|].
  destruct (Z.le_gt_cases (end_ (attachedRange st)) (start (attachedRange st)))
    as [Hle|Hgt].
  - replace (Z.to_nat (end_ (attachedRange st) - start (attachedRange st) + 1))
      with O by lia.
    by eexists.
  - destruct Hc as [?|Hin]; [lia|].
    destruct (refresh_spec
                (Z.to_nat (end_ (attachedRange st) - start (attachedRange st) + 1))
                (start (attachedRange st)) (nodes (element st))
                (set_itemsMetadata g st)) as (ms & Hrun & _).
    + simpl. lia.
    + done.
    + simpl. lia.
    + rewrite Hrun. by eexists.
Qed.

Lemma nodesResized_shape entries : forall st,
  exists ms',
    state_of (nodesResized entries st) = set_itemsMetadata ms' st
    /\ len (itemsMetadata st) <= len ms'
    /\ (aligned (itemsMetadata st) -> aligned ms').
Proof.
  induction entries as [|[i h] rest IH]; intros st.
  - exists (itemsMetadata st). simpl. rewrite set_itemsMetadata_id.
    split; [done|]. split; [lia | done].
  - pose proof (aligned_nodesResized ((i, h) :: rest) st) as Hal.
    cbn [nodesResized nodeResized] in *. destruct (h =? 0).
    { cbn [bind] in *. destruct (IH st) as (ms' & Hrun & Hlen & _).
      exists ms'. split; [done|]. split; [done|].
      intros Halst. specialize (Hal Halst). by rewrite Hrun in Hal. }
    destruct (js_get (itemsMetadata st) i) as [m|].
    2:{ exists (itemsMetadata st). simpl. rewrite set_itemsMetadata_id.
        split; [done|]. split; [lia | done]. }
    cbn [bind] in *.
    match goal with
    | |- context [nodesResized rest ?s] =>
        destruct (IH s) as (ms' & Hrun & Hlen & _)
    end.
    exists ms'. split; [by rewrite Hrun|]. split.
    + etrans; [|exact Hlen]. simpl.
      etrans; [apply (len_put_ge i (Meta (index m) h (data m)))|].
      apply len_put_ge.
    + intros Halst. specialize (Hal Halst). by rewrite Hrun in Hal.
Qed.

(** The state [fill] leaves, raising or not (it never does). *)
Lemma fill_shape st s e :
  exists ms evs,
    state_of (fill s e st)
    = set_dispatched (dispatched st ++ evs)
        (set_itemsMetadata ms (set_attachedRange (clamp st s e) st))
    /\ all_typed_event evs
    /\ len (itemsMetadata st) <= len ms
    /\ (items st <> [] -> len (items st) <= len ms)
    /\ (aligned (itemsMetadata st) -> aligned ms).
Proof.
  pose proof (aligned_fill st s e) as Hal.
  destruct (fill_spec st s e) as (ms & Hrun & Hempty & Href). rewrite Hrun in *.
  cbv zeta in *. cbn [state_of] in *.
  assert (Hlen : len (itemsMetadata st) <= len ms
                 /\ (items st <> [] -> len (items st) <= len ms)).
  { destruct (items st) as [|x its] eqn:Hits.
    - rewrite Hempty by done. split; [lia | done].
    - destruct Href as (Hl & _); [done|].
      destruct (growMetadata_spec st) as (g & Hg & Hglen & _).
      rewrite Hg in Hl. simpl in Hl. rewrite Hits in Hglen. split; [lia|].
      intros _. lia. }
  destruct Hlen as [Hl1 Hl2].
  destruct ((len (items st) <=? e) && hasMore st).
  - exists ms, [MkEvent "event" (Some (len (items st)))].
    split; [done|]. split.
    + intros [|i] ev Hev; [|done]. by injection Hev as <-.
    + split; [done|]. split; [done|]. intros Halst. by apply Hal in Halst.
  - exists ms, []. split; [simpl; by rewrite app_nil_r|]. split; [done|].
    split; [done|]. split; [done|]. intros Halst. by apply Hal in Halst.
Qed.

End Shapes.

Section Handlers.
Context {T : Type}.
Implicit Types (st : VirtualScroller T) (cfg : VirtualScroller T * nat).

Lemma all_typed_event_app evs1 evs2 :
  all_typed_event evs1 -> all_typed_event evs2 -> all_typed_event (evs1 ++ evs2).
Proof.
  intros H1 H2 i ev Hev. apply lookup_app_Some in Hev as [Hev|[_ Hev]].
  - by apply (H1 i).
  - by apply (H2 _ _ Hev).
Qed.

Lemma grows_refl st : grows st st.
Proof.
  split; [done|]. split; [done|]. exists []. by rewrite app_nil_r.
Qed.

Lemma grows_trans st1 st2 st3 : grows st1 st2 -> grows st2 st3 -> grows st1 st3.
Proof.
  intros (Hl1 & Hr1 & evs1 & He1 & Ht1) (Hl2 & Hr2 & evs2 & He2 & Ht2).
  split; [congruence|]. split; [auto|].
  exists (evs1 ++ evs2). split; [|by apply all_typed_event_app].
  by rewrite He2, He1, app_assoc.
Qed.

Lemma grows_frame st st' :
  loadingItem st' = loadingItem st -> (isReady st = true -> isReady st' = true) ->
  dispatched st' = dispatched st ->
  grows st st'.
Proof.
  intros Hl Hrd Hd. split; [done|]. split; [done|].
  exists []. by rewrite app_nil_r.
Qed.

Lemma keeps_refl st : keeps st st.
Proof. split; [done | apply grows_refl]. Qed.

Lemma keeps_trans st1 st2 st3 : keeps st1 st2 -> keeps st2 st3 -> keeps st1 st3.
Proof.
  intros [Hs1 Hg1] [Hs2 Hg2]. split; [auto | by apply (grows_trans _ st2)].
Qed.

(** A change that leaves the store, the range, the placeholder, the ready
    flag (or sets it) and the log alone. *)
Lemma keeps_frame st st' :
  itemsMetadata st' = itemsMetadata st -> attachedRange st' = attachedRange st ->
  loadingItem st' = loadingItem st -> (isReady st = true -> isReady st' = true) ->
  dispatched st' = dispatched st ->
  keeps st st'.
Proof.
  intros Hms Hr Hl Hrd Hd. split.
  - unfold sound, covered. by rewrite Hms, Hr.
  - split; [done|]. split; [done|]. exists []. by rewrite app_nil_r.
Qed.

Lemma keeps_resetMetadata st : keeps st (resetMetadata st).
Proof.
  split; [|by apply grows_frame].
  intros _. split; [apply aligned_resetMetadata|]. split; simpl; lia.
Qed.

Lemma keeps_fill st s e : keeps st (state_of (fill s e st)).
Proof.
  destruct (fill_shape st s e) as (ms & evs & -> & Hty & Hlen & Hcover & Hal).
  split.
  - intros [Halst _]. split; [by apply Hal|].
    unfold covered, clamp. cbn [attachedRange set_dispatched set_itemsMetadata
                                  set_attachedRange start end_ itemsMetadata].
    split; [lia|]. destruct (items st) as [|x its] eqn:Hits.
    + left. unfold len. simpl. lia.
    + right. specialize (Hcover ltac:(done)). unfold len in *. simpl in *. lia.
  - split; [done|]. split; [done|]. by exists evs.
Qed.

Lemma keeps_updateMetadata st : keeps st (state_of (updateMetadata st)).
Proof.
  destruct (updateMetadata_shape st) as (ms & -> & Hlen & Hal).
  split; [|by apply grows_frame].
  intros [Halst [Hs Hc]]. split; [by apply Hal|].
  split; [done|]. simpl. destruct Hc as [?|?]; [by left | right; lia].
Qed.

Lemma keeps_nodesResized entries st : keeps st (state_of (nodesResized entries st)).
Proof.
  destruct (nodesResized_shape entries st) as (ms & -> & Hlen & Hal).
  split; [|by apply grows_frame].
  intros [Halst [Hs Hc]]. split; [by apply Hal|].
  split; [done|]. simpl. destruct Hc as [?|?]; [by left | right; lia].
Qed.

Lemma keeps_handleScroll_enter st : keeps st (fst (handleScroll_enter st)).
Proof.
  unfold handleScroll_enter. destruct (isScrolling st); [apply keeps_refl|].
  split; [done|]. split; [done|]. split; [done|].
  exists [MkEvent "event" None]. split; [done|].
  intros [|i] ev Hev; [|done]. by injection Hev as <-.
Qed.

Lemma keeps_handleScroll_resume st : keeps st (state_of (handleScroll_resume st)).
Proof.
  unfold handleScroll_resume.
  apply (keeps_trans _ (set_isScrolling false st)); [by apply keeps_frame|].
  apply keeps_fill.
Qed.

Lemma keeps_fillInitial_enter st : keeps st (state_of (fillInitial_enter st)).
Proof. apply keeps_fill. Qed.

Lemma keeps_fillInitial_resume d st : keeps st (state_of (fillInitial_resume d st)).
Proof.
  unfold fillInitial_resume. cbv zeta.
  apply (keeps_trans _ (set_element d st)); [by apply keeps_frame|].
  match goal with
  | |- context [if ?c then fillInitial_enter _ else _] => destruct c
  end; [apply keeps_fillInitial_enter | apply keeps_refl].
Qed.

Lemma keeps_visibilityChanged targetReady st :
  keeps st (visibilityChanged targetReady st).
Proof.
  unfold visibilityChanged. destruct targetReady; [apply keeps_refl|].
  apply (keeps_trans _ (state_of (fillInitial_enter st)));
    [apply keeps_fillInitial_enter | by apply keeps_frame].
Qed.

Lemma keeps_itemsAssigned its st : keeps st (state_of (itemsAssigned its st)).
Proof.
  unfold itemsAssigned, updated_enter.
  apply (keeps_trans _ (set_items its st)); [by apply keeps_frame|].
  destruct (true && (negb (hasMore (set_items its st))
                     && negb (len (items (set_items its st))
                              =? len (itemsMetadata (set_items its st))))).
  - apply (keeps_trans _ (resetMetadata (set_items its st)));
      [apply keeps_resetMetadata|].
    apply (keeps_trans _ (scrollTo 0 0 (resetMetadata (set_items its st))));
      [by apply keeps_frame | apply keeps_fillInitial_enter].
  - apply keeps_refl.
Qed.

Lemma keeps_scrollerResized h cfg :
  keeps (fst cfg) (fst (cfg_of (scrollerResized h cfg))).
Proof.
  destruct cfg as [st w]. unfold scrollerResized. cbn [fst].
  destruct (negb (h =? 0) && (_scrollHeight st =? 0)).
  - pose proof (keeps_updateMetadata st) as Hup.
    destruct (updateMetadata st) as [st1|err st1]; cbn [state_of] in Hup; [|done].
    destruct (negb (h =? 0) && negb (h =? _scrollHeight st1)); [|done].
    pose proof (keeps_handleScroll_enter st1) as Hen.
    destruct (handleScroll_enter st1) as [st2 suspended]. by apply (keeps_trans _ st1).
  - destruct (negb (h =? 0) && negb (h =? _scrollHeight st)); [|apply keeps_refl].
    pose proof (keeps_handleScroll_enter st) as Hen.
    by destruct (handleScroll_enter st) as [st2 suspended].
Qed.

Lemma keeps_scrollersResized heights : forall cfg,
  keeps (fst cfg) (fst (cfg_of (scrollersResized heights cfg))).
Proof.
  induction heights as [|h rest IH]; intros cfg; [apply keeps_refl|].
  cbn [scrollersResized]. pose proof (keeps_scrollerResized h cfg) as Hone.
  destruct (scrollerResized h cfg) as [cfg1|err cfg1]; cbn [bind cfg_of] in *; [|done].
  by apply (keeps_trans _ (fst cfg1)).
Qed.

Lemma keeps_happen hp cfg : keeps (fst cfg) (fst (happen hp cfg)).
Proof.
  destruct cfg as [st w].
  destruct hp as [|its|b|z|targetReady|d| |d|entries|heights|d]; cbn [happen fst].
  - apply keeps_resetMetadata.
  - apply keeps_itemsAssigned.
  - by apply keeps_frame.
  - by apply keeps_frame.
  - apply keeps_visibilityChanged.
  - apply keeps_fillInitial_resume.
  - pose proof (keeps_handleScroll_enter st).
    by destruct (handleScroll_enter st).
  - destruct w as [|w]; cbn [fst]; [by apply keeps_frame|].
    apply (keeps_trans _ (set_element d st)); [by apply keeps_frame|].
    apply keeps_handleScroll_resume.
  - apply keeps_nodesResized.
  - apply (keeps_scrollersResized heights (st, w)).
  - by apply keeps_frame.
Qed.

Lemma keeps_happenings hps : forall cfg, keeps (fst cfg) (fst (happenings hps cfg)).
Proof.
  induction hps as [|hp hps IH]; intros cfg; [apply keeps_refl|].
  apply (keeps_trans _ (fst (happen hp cfg))); [apply keeps_happen | apply IH].
Qed.

End Handlers.

Section Invariants.
Context {T : Type}.
Implicit Types (st : VirtualScroller T) (cfg : VirtualScroller T * nat).

Lemma updateMetadata_isScrolling st :
  isScrolling (state_of (updateMetadata st)) = isScrolling st.
Proof. by destruct (updateMetadata_shape st) as (ms & -> & _). Qed.

Lemma scrollerResized_settled h cfg :
  settled cfg -> settled (cfg_of (scrollerResized h cfg)).
Proof.
  destruct cfg as [st w]. unfold settled, scrollerResized. cbn [fst snd].
  intros Hw.
  assert (Henter : forall st1, isScrolling st1 = isScrolling st ->
            snd (let '(st2, suspended) := handleScroll_enter st1 in
                 (st2, if suspended then S w else w))
            = if isScrolling (fst (let '(st2, suspended) := handleScroll_enter st1 in
                                   (st2, if suspended then S w else w)))
              then 1%nat else O).
  { intros st1 Hsame. unfold handleScroll_enter. rewrite <- Hsame in Hw.
    destruct (isScrolling st1) eqn:Hsc; cbn [fst snd].
    - by rewrite Hsc.
    - simpl. by rewrite Hw. }
  destruct (negb (h =? 0) && (_scrollHeight st =? 0)).
  - pose proof (updateMetadata_isScrolling st) as Hsame.
    destruct (updateMetadata st) as [st1|err st1]; cbn [state_of cfg_of fst snd] in *.
    + destruct (negb (h =? 0) && negb (h =? _scrollHeight st1)).
      * specialize (Henter st1 Hsame).
        by destruct (handleScroll_enter st1) as [st2 suspended].
      * cbn [cfg_of fst snd]. by rewrite Hsame.
    + by rewrite Hsame.
  - destruct (negb (h =? 0) && negb (h =? _scrollHeight st)).
    + specialize (Henter st eq_refl).
      by destruct (handleScroll_enter st) as [st2 suspended].
    + done.
Qed.

Lemma scrollersResized_settled heights : forall cfg,
  settled cfg -> settled (cfg_of (scrollersResized heights cfg)).
Proof.
  induction heights as [|h rest IH]; intros cfg Hcfg; [done|].
  cbn [scrollersResized]. pose proof (scrollerResized_settled h cfg Hcfg) as Hone.
  destruct (scrollerResized h cfg) as [cfg1|err cfg1]; cbn [bind cfg_of] in *; [|done].
  by apply IH.
Qed.

Lemma happen_settled hp cfg : settled cfg -> settled (happen hp cfg).
Proof.
  destruct cfg as [st w]. intros Hw. pose proof Hw as Hw'.
  unfold settled in Hw'. cbn [fst snd] in Hw'.
  destruct hp as [|its|b|z|targetReady|d| |d|entries|heights|d];
    cbn [happen]; unfold settled; cbn [fst snd]; try done.
  - unfold itemsAssigned, updated_enter.
    destruct (true && (negb (hasMore (set_items its st))
                       && negb (len (items (set_items its st))
                                =? len (itemsMetadata (set_items its st))))).
    + unfold fillInitial_enter. rewrite fill_isScrolling. exact Hw'.
    + exact Hw'.
  - unfold visibilityChanged. destruct targetReady; [exact Hw'|].
    unfold fillInitial_enter. cbn [isScrolling set_isReady].
    rewrite fill_isScrolling. exact Hw'.
  - unfold fillInitial_resume. cbv zeta.
    match goal with
    | |- context [if ?c then fillInitial_enter _ else _] => destruct c
    end; [|exact Hw'].
    unfold fillInitial_enter. rewrite fill_isScrolling. exact Hw'.
  - unfold handleScroll_enter. destruct (isScrolling st) eqn:Hsc; cbn [fst snd].
    + by rewrite Hsc.
    + simpl. by rewrite Hw'.
  - destruct w as [|w]; cbn [fst snd]; [exact Hw'|].
    unfold handleScroll_resume. rewrite fill_isScrolling. simpl.
    destruct (isScrolling st); [lia | discriminate].
  - rewrite nodesResized_isScrolling. exact Hw'.
  - apply (scrollersResized_settled heights (st, w) Hw).
Qed.

Lemma happenings_settled hps : forall cfg, settled cfg -> settled (happenings hps cfg).
Proof.
  induction hps as [|hp hps IH]; intros cfg Hcfg; [done|].
  apply IH, happen_settled, Hcfg.
Qed.

Lemma scrollerResized_normal h cfg :
  covered (fst cfg) -> exists cfg', scrollerResized h cfg = Normal cfg'.
Proof.
  destruct cfg as [st w]. cbn [fst]. intros Hc. unfold scrollerResized.
  destruct (negb (h =? 0) && (_scrollHeight st =? 0)).
  - destruct (updateMetadata_covered st Hc) as [st1 ->].
    destruct (negb (h =? 0) && negb (h =? _scrollHeight st1)); [|by eexists].
    destruct (handleScroll_enter st1). by eexists.
  - destruct (negb (h =? 0) && negb (h =? _scrollHeight st)); [|by eexists].
    destruct (handleScroll_enter st). by eexists.
Qed.

Lemma scrollersResized_normal heights : forall cfg,
  sound (fst cfg) -> exists cfg', scrollersResized heights cfg = Normal cfg'.
Proof.
  induction heights as [|h rest IH]; intros cfg Hcfg; [by eexists|].
  cbn [scrollersResized].
  pose proof (keeps_scrollerResized h cfg) as [Hsound _].
  destruct (scrollerResized_normal h cfg) as [cfg1 Hrun]; [apply Hcfg|].
  rewrite Hrun in *. cbn [bind cfg_of] in *. apply IH, Hsound, Hcfg.
Qed.

(** X12.  Whatever happens to the element, if the records carried their
    positions and the window was covered (empty, a single index, or ending
    inside the store), they still do and it still is. *)
Theorem handlers_keep_store_sound (hps : list happening) cfg :
  aligned (itemsMetadata (fst cfg)) -> covered (fst cfg) ->
  aligned (itemsMetadata (fst (happenings hps cfg)))
  /\ covered (fst (happenings hps cfg)).
Proof.
  intros Hal Hc. destruct (keeps_happenings hps cfg) as [Hsound _].
  by apply Hsound.
Qed.

(** X13.  In every state the element reaches from such a state,
    [updateMetadata] returns normally, and so does the callback of the
    container's resize observer, whatever heights it is given. *)
Theorem container_resize_never_raises (hps : list happening) cfg (heights : list Z) :
  aligned (itemsMetadata (fst cfg)) -> covered (fst cfg) ->
  (exists st', updateMetadata (fst (happenings hps cfg)) = Normal st')
  /\ (exists cfg', scrollersResized heights (happenings hps cfg) = Normal cfg').
Proof.
  intros Hal Hc. destruct (keeps_happenings hps cfg) as [Hsound _].
  specialize (Hsound (conj Hal Hc)). split.
  - apply updateMetadata_covered, Hsound.
  - by apply scrollersResized_normal.
Qed.

(** X14.  The event log only grows, and every event any handler dispatches
    is of type ['event']: none is of type ['load-more'] or ['scrolled']. *)
Theorem events_are_typed_event (hps : list happening) cfg :
  exists evs,
    dispatched (fst (happenings hps cfg)) = dispatched (fst cfg) ++ evs
    /\ forall (i : nat) ev, evs !! i = Some ev ->
         type ev = "event"%string
         /\ type ev <> "load-more"%string /\ type ev <> "scrolled"%string.
Proof.
  destruct (keeps_happenings hps cfg) as (_ & _ & _ & evs & Hevs & Hty).
  exists evs. split; [done|]. intros i ev Hev.
  rewrite (Hty i ev Hev). by repeat split.
Qed.

(** X15.  No handler writes [loadingItem]: whenever the loading
    placeholder is rendered, it is at the offset it was created with, and
    the scroll height counts the height it was created with. *)
Theorem placeholder_never_moves (hps : list happening) cfg :
  let st' := fst (happenings hps cfg) in
  loadingItem st' = loadingItem (fst cfg)
  /\ renderLoading st'
     = (if loading st' then Some (top (loadingItem (fst cfg))) else None)
  /\ exists bottom,
       last (accumulativeHeight st') = Some bottom
       /\ _scrollHeight st'
          = if loading st' then bottom + loading_height (loadingItem (fst cfg))
            else bottom.
Proof.
  intros st'. destruct (keeps_happenings hps cfg) as (_ & Hl & _). fold st' in Hl.
  split; [done|]. split.
  - unfold renderLoading. rewrite Hl. by destruct (loading st').
  - exists (total (height_or (minHeight st')) (itemsMetadata st')).
    split; [apply last_offset|].
    unfold _scrollHeight. by rewrite fold_left_total, Z.add_0_l, Hl.
Qed.

(** X16.  Once [isReady] is set no handler clears it, and [render] keeps
    giving the scroll box the class [virtual-scroller--ready]. *)
Theorem ready_stays (hps : list happening) cfg :
  isReady (fst cfg) = true ->
  let st' := fst (happenings hps cfg) in
  isReady st' = true
  /\ elementClass st' = ["virtual-scroller"; "virtual-scroller--ready"]%string.
Proof.
  intros Hready st'. destruct (keeps_happenings hps cfg) as (_ & _ & Hr & _).
  specialize (Hr Hready). fold st' in Hr.
  split; [done|]. unfold elementClass. by rewrite Hr.
Qed.

(** X17.  From an idle element, whatever happens, the container's resize
    observer included, at most one [handleScroll] waits for its frame, and
    one waits exactly while [isScrolling] is set. *)
Theorem one_settle_at_a_time (hps : list happening) st :
  isScrolling st = false ->
  (snd (happenings hps (st, O)) <= 1)%nat
  /\ (isScrolling (fst (happenings hps (st, O))) = true <->
      snd (happenings hps (st, O)) = 1%nat).
Proof.
  intros Hidle.
  assert (Hinv : settled (happenings hps (st, O))).
  { apply happenings_settled. unfold settled. cbn [fst snd]. by rewrite Hidle. }
  unfold settled in Hinv. rewrite Hinv.
  destruct (isScrolling (fst (happenings hps (st, O)))); split; try lia; done.
Qed.

End Invariants.

Section Batch.
Context {T : Type}.
Implicit Types (st : VirtualScroller T) (m : ScrollerItemMeta T).

(** X18.  On a store whose records carry their positions, a batch of
    measurements whose non-zero entries all lie inside the store returns
    normally and changes heights only: the store keeps its length, every
    record keeps its index and its data, and a height that changed is one
    the batch reported for that index. *)
Theorem measurements_touch_heights_only (entries : list (Z * Z)) : forall st,
  aligned (itemsMetadata st) ->
  (forall (k : nat) i h, entries !! k = Some (i, h) -> h <> 0 ->
     0 <= i < len (itemsMetadata st)) ->
  exists ms',
    nodesResized entries st = Normal (set_itemsMetadata ms' st)
    /\ length ms' = length (itemsMetadata st)
    /\ forall (j : nat) m, itemsMetadata st !! j = Some m ->
         exists m', ms' !! j = Some m'
           /\ index m' = index m /\ data m' = data m
           /\ (height m' = height m
               \/ exists (k : nat) h, entries !! k = Some (Z.of_nat j, h)
                                      /\ h <> 0 /\ height m' = h).
Proof.
  induction entries as [|[i h] rest IH]; intros st Hal Hin.
  - exists (itemsMetadata st). cbn [nodesResized]. rewrite set_itemsMetadata_id.
    split; [done|]. split; [done|]. intros j m Hm. exists m. auto.
  - assert (Hrest : forall st1, len (itemsMetadata st1) = len (itemsMetadata st) ->
              forall (k : nat) i' h', rest !! k = Some (i', h') -> h' <> 0 ->
                0 <= i' < len (itemsMetadata st1)).
    { intros st1 Hlen k i' h' Hk Hh'. rewrite Hlen. by apply (Hin (S k) i' h'). }
    destruct (Z.eq_dec h 0) as [->|Hh].
    + destruct (IH st Hal (Hrest st eq_refl)) as (ms' & Hrun & Hlen & Hrec).
      exists ms'. split; [exact Hrun|]. split; [done|].
      intros j m Hm. destruct (Hrec j m Hm) as (m' & Hm' & Hi & Hd & Hh).
      exists m'. split; [done|]. split; [done|]. split; [done|].
      destruct Hh as [?|(k & h & Hk & ? & ?)]; [by left|].
      right. by exists (S k), h.
    + specialize (Hin O i h eq_refl Hh) as Hi.
      destruct (js_get_in_bounds (itemsMetadata st) i Hi) as [m0 Hm0].
      pose proof (js_get_aligned _ _ _ Hal Hm0) as Hindex.
      pose proof (measurement_applied st i h m0 Hh Hm0 Hindex) as Hone.
      set (st1 := set_itemsMetadata
                    (<[Z.to_nat i := Meta i h (data m0)]> (itemsMetadata st)) st) in *.
      assert (Hlen1 : len (itemsMetadata st1) = len (itemsMetadata st))
        by (unfold len; simpl; by rewrite length_insert).
      assert (Hal1 : aligned (itemsMetadata st1)).
      { pose proof (aligned_nodesResized [(i, h)] st Hal) as H1.
        cbn [nodesResized] in H1. rewrite Hone in H1. exact H1. }
      destruct (IH st1 Hal1 (Hrest st1 Hlen1)) as (ms' & Hrun & Hlen & Hrec).
      exists ms'. split; [cbn [nodesResized]; rewrite Hone; exact Hrun|].
      split; [rewrite Hlen; simpl; by rewrite length_insert|].
      intros j m Hm. unfold js_get in Hm0. case_decide; [|lia].
      destruct (decide (j = Z.to_nat i)) as [->|Hne].
      * assert (m0 = m) as -> by congruence.
        destruct (Hrec (Z.to_nat i) (Meta i h (data m)))
          as (m' & Hm' & Hi' & Hd & Hh').
        { simpl. apply list_lookup_insert_eq. by apply lookup_lt_Some in Hm. }
        exists m'. split; [done|]. split; [by rewrite Hi', Hindex|]. split; [done|].
        right. destruct Hh' as [Hsame|(k & h' & Hk & ? & ?)].
        -- exists O, h. split; [simpl; do 2 f_equal; lia|]. by split.
        -- by exists (S k), h'.
      * destruct (Hrec j m) as (m' & Hm' & Hi' & Hd & Hh').
        { simpl. by rewrite list_lookup_insert_ne. }
        exists m'. split; [done|]. split; [done|]. split; [done|].
        destruct Hh' as [?|(k & h' & Hk & ? & ?)]; [by left|].
        right. by exists (S k), h'.
Qed.

End Batch.

(** X2, witness: three records measured at 50, all attached. *)
Lemma clientHeight_span_witness :
  _clientHeight shown = 150
  /\ exists b,
       js_get (accumulativeHeight shown) 3 = Some b
       /\ _clientHeight shown = b.
Proof.
  split; [reflexivity|].
  destruct (clientHeight_span shown) as (b & Hb & _ & Heq);
    [reflexivity | unfold len; simpl; lia |].
  exists b. split; [exact Hb|]. apply Heq.
  intros i m Hi Hm. simpl in Hi.
  assert (Hcases : i = 0 \/ i = 1 \/ i = 2) by lia.
  destruct Hcases as [->|[->| ->]]; vm_compute in Hm; injection Hm as <-; discriminate.
Defined.


(** X4, witness: [shown], scrolled to 0 in a viewport 60 high. *)
Lemma getVisibleItems_ordered_witness :
  0 <= first (getVisibleItems shown)
  /\ first (getVisibleItems shown) <= last_ (getVisibleItems shown)
  /\ last_ (getVisibleItems shown) <= 3.
Proof. apply (getVisibleItems_ordered shown); simpl; lia. Defined.

(** X5, witness: offset 0 of [shown] is at most [scrollTop], and 0 is at
    most [first]. *)
Lemma first_splits_offsets_witness :
  0 <= scrollTop (element shown) <-> 0 <= first (getVisibleItems shown).
Proof.
  apply (first_splits_offsets shown 0 0); [|reflexivity].
  intros [|[|[|k]]] m Hm; try discriminate; injection Hm as <-; vm_compute; discriminate.
Defined.

(** X6, witness: [shown] with [hasMore] set, scrolled to 100 in a viewport
    60 high: the lower edge, 160, is past the last offset, 150. *)
Lemma settle_requests_more_witness :
  exists st' bottom,
    handleScroll_resume
      (set_element (MkDom 100 60 60 [50; 50; 50] (0, 0)) (set_hasMore true shown))
    = Normal st'
    /\ last (accumulativeHeight shown) = Some bottom
    /\ isScrolling st' = false
    /\ dispatched st' = [MkEvent "event" (Some 3)].
Proof.
  destruct (settle_requests_more
              (set_element (MkDom 100 60 60 [50; 50; 50] (0, 0)) (set_hasMore true shown)))
    as (st' & bottom & Hrun & Hlast & Hsc & Hd); [reflexivity|].
  exists st', bottom. split; [exact Hrun|]. split; [exact Hlast|]. split; [exact Hsc|].
  rewrite Hd. vm_compute in Hlast. injection Hlast as <-. reflexivity.
Defined.

(** X7, witness: [shown] scrolled to 70: the window starts at item 1, whose
    offsets are 50 and 100. *)
Lemma settle_window_witness :
  exists st' top_ next,
    handleScroll_resume (set_element (MkDom 70 60 60 [50; 50; 50] (0, 0)) shown)
    = Normal st'
    /\ 0 <= start (attachedRange st')
    /\ start (attachedRange st') <= end_ (attachedRange st')
    /\ end_ (attachedRange st') <= 2
    /\ js_get (accumulativeHeight shown) (start (attachedRange st')) = Some top_
    /\ js_get (accumulativeHeight shown) (start (attachedRange st') + 1) = Some next
    /\ top_ <= 70 < next
    /\ js_get (accumulativeHeight st') (start (attachedRange st')) = Some top_.
Proof.
  apply (settle_window (set_element (MkDom 70 60 60 [50; 50; 50] (0, 0)) shown) 150);
    [reflexivity | simpl; lia | simpl; lia | reflexivity | simpl; lia].
Defined.

(** X9, witness: item 0 of three unmeasured items, which counts for 50, is
    measured at 80; offset 2, which was 100, is not smaller afterwards. *)
Lemma measurement_moves_offsets_witness :
  exists st' x',
    nodesResized [(0, 80)] (loaded three false blank) = Normal st'
    /\ js_get (accumulativeHeight st') 2 = Some x'
    /\ 100 <= x'.
Proof.
  destruct (measurement_moves_offsets (loaded three false blank) 0 80
              (Meta 0 0 (Some "a"%string)) 2 100)
    as (st' & x' & Hrun & Hx' & _ & Hup & _); [lia | reflexivity..|].
  exists st', x'. split; [exact Hrun|]. split; [exact Hx'|].
  apply Hup. vm_compute. discriminate.
Defined.

(** X10, witness: ten items; offset 9 is 450 after a reset, offset 10 is
    500. *)
Lemma resetMetadata_offsets_witness :
  js_get (accumulativeHeight (loaded ten true blank)) 10 = Some 500.
Proof.
  apply (resetMetadata_offsets
           (MkScroller ten true 50 [] (Range 0 0) (Loading 0 0) false false blank [])
           9 450); [unfold len; simpl; lia | reflexivity].
Defined.

(** X11, witness: ten items, [hasMore] set, a viewport that is never
    filled and only repainted during the ticks. *)
Lemma fillInitial_never_requests_witness :
  exists calls : nat,
    (forall fuel, (calls <= fuel)%nat ->
       fillInitial_among fuel
         (fun _ s => set_element (MkDom 0 5000 5000 [] (0, 0)) s) 0
         (loaded ten true blank)
       = Some (Normal
                 (after_calls (fun _ s => set_element (MkDom 0 5000 5000 [] (0, 0)) s)
                    0 calls (loaded ten true blank)), calls))
    /\ dispatched
         (after_calls (fun _ s => set_element (MkDom 0 5000 5000 [] (0, 0)) s)
            0 calls (loaded ten true blank)) = [].
Proof.
  apply (fillInitial_never_requests (loaded ten true blank)
           (fun _ s => set_element (MkDom 0 5000 5000 [] (0, 0)) s)).
  - intros k s. split; [done|]. split; [done|]. simpl. lia.
  - intros k s. done.
  - reflexivity.
  - simpl. lia.
  - unfold len. simpl. lia.
Defined.

(** X12, witness: a day in the life of a created element. *)
Lemma handlers_keep_store_sound_witness :
  aligned (itemsMetadata (fst (happenings day (created_hasMore, O))))
  /\ covered (fst (happenings day (created_hasMore, O))).
Proof.
  apply (handlers_keep_store_sound day (created_hasMore, O));
    [intros i m Hm; discriminate Hm | split; simpl; lia].
Defined.

(** X13, witness: after that day the container is observed at two
    heights. *)
Lemma container_resize_never_raises_witness :
  (exists st', updateMetadata (fst (happenings day (created_hasMore, O))) = Normal st')
  /\ (exists cfg', scrollersResized [400; 300] (happenings day (created_hasMore, O))
                   = Normal cfg').
Proof.
  apply (container_resize_never_raises day (created_hasMore, O) [400; 300]);
    [intros i m Hm; discriminate Hm | split; simpl; lia].
Defined.

(** X16, witness: [shown] is ready and stays so. *)
Lemma ready_stays_witness :
  isReady (fst (happenings day (shown, O))) = true
  /\ elementClass (fst (happenings day (shown, O)))
     = ["virtual-scroller"; "virtual-scroller--ready"]%string.
Proof. apply (ready_stays day (shown, O)). reflexivity. Defined.

(** X17, witness: the same day, from [shown]. *)
Lemma one_settle_at_a_time_witness :
  (snd (happenings day (shown, O)) <= 1)%nat
  /\ (isScrolling (fst (happenings day (shown, O))) = true <->
      snd (happenings day (shown, O)) = 1%nat).
Proof. apply (one_settle_at_a_time day shown). reflexivity. Defined.

(** X18, witness: two measurements and a skipped one on three records. *)
Lemma measurements_touch_heights_only_witness :
  exists ms',
    nodesResized [(0, 80); (9, 0); (2, 30)] (loaded three false blank)
    = Normal (set_itemsMetadata ms' (loaded three false blank))
    /\ length ms' = 3%nat.
Proof.
  destruct (measurements_touch_heights_only [(0, 80); (9, 0); (2, 30)]
              (loaded three false blank)) as (ms' & Hrun & Hlen & _).
  - intros [|[|[|i]]] m Hm; try discriminate; by injection Hm as <-.
  - intros [|[|[|k]]] i h Hk Hh; try discriminate; injection Hk as <- <-;
      unfold len; simpl; lia.
  - exists ms'. split; [exact Hrun | exact Hlen].
Defined.

Section Replacing.
Context {T : Type}.
Implicit Types (st : VirtualScroller T) (m : ScrollerItemMeta T).

(** X19.  When [items] is replaced while [hasMore] is false and the new
    length differs from the store's, the state [updated] leaves at its
    first tick has one record per new item, each carrying its position and
    pointing at the new item, and the window [{0, 1}] cut to the
    collection. *)
Theorem replacement_points_at_new_items (its : list T) st :
  hasMore st = false -> len its <> len (itemsMetadata st) ->
  exists st',
    itemsAssigned its st = Normal st'
    /\ items st' = its
    /\ length (itemsMetadata st') = length its
    /\ (forall (i : nat) m, itemsMetadata st' !! i = Some m ->
          index m = Z.of_nat i /\ data m = its !! i)
    /\ attachedRange st' = Range 0 (Z.min 1 (Z.max 0 (len its - 1))).
Proof.
  intros Hmore Hlen. unfold itemsAssigned, updated_enter.
  cbn [hasMore items itemsMetadata set_items]. rewrite Hmore.
  destruct (Z.eqb_spec (len its) (len (itemsMetadata st))); [done|].
  cbn [andb negb]. unfold fillInitial_enter.
  set (st0 := scrollTo 0 0 (resetMetadata (set_items its st))).
  change (start (attachedRange st0)) with 0.
  change (end_ (attachedRange st0) + 1) with 1.
  destruct (fill_spec st0 0 1) as (ms & Hrun & Hempty & Href).
  assert (Hstore : forall (i : nat),
            itemsMetadata st0 !! i
            = (fun item => Meta (Z.of_nat i) 0 (Some item)) <$> its !! i).
  { intros i. subst st0. simpl. by rewrite list_lookup_imap. }
  assert (Hlen0 : length (itemsMetadata st0) = length its)
    by (subst st0; simpl; apply length_imap).
  assert (Hg : growMetadata st0 = st0).
  { apply growMetadata_covered. unfold len. rewrite Hlen0. by subst st0. }
  assert (Hms : length ms = length its
                /\ forall (i : nat) m, ms !! i = Some m ->
                     index m = Z.of_nat i /\ data m = its !! i).
  { destruct (Nat.eq_dec (length its) O) as [Hnil|Hcons].
    - apply nil_length_inv in Hnil. rewrite Hempty by (by subst st0).
      split; [done|]. intros i m Hm. rewrite Hstore, Hnil in Hm. by destruct i.
    - destruct Href as (Hl & Hsame & Hin & Hout).
      { change (items st0) with its. intros Hnil. by rewrite Hnil in Hcons. }
      rewrite Hg in *.
      split; [unfold len in Hl; lia|].
      intros i m Hm. rewrite <- js_get_of_nat in Hm.
      assert (Hold : forall m0, js_get (itemsMetadata st0) (Z.of_nat i) = Some m0 ->
                index m0 = Z.of_nat i /\ data m0 = its !! i).
      { intros m0 Hm0. rewrite js_get_of_nat, Hstore in Hm0.
        destruct (its !! i); [|done]. by injection Hm0 as <-. }
      destruct (decide (start (clamp st0 0 1) = end_ (clamp st0 0 1))) as [Heq|Hne].
      { rewrite (Hsame Heq) in Hm. by apply Hold. }
      destruct (decide (start (clamp st0 0 1) <= Z.of_nat i <= end_ (clamp st0 0 1)))
        as [Hi|Hi].
      + destruct (js_get (nodes (element st0)) (Z.of_nat i - start (clamp st0 0 1)))
          as [h|] eqn:Hnode.
        * destruct (Hin Hne _ h Hi Hnode) as (m0 & Hm0 & Hm').
          rewrite Hm' in Hm. injection Hm as <-. simpl.
          destruct (Hold m0 Hm0) as [Hindex _]. split; [done|].
          change (items st0) with its. apply js_get_of_nat.
        * rewrite Hout in Hm by auto. by apply Hold.
      + rewrite Hout in Hm by lia. by apply Hold. }
  destruct Hms as [Hmslen Hmsrec].
  eexists. split; [exact Hrun|]. cbv zeta.
  change (items st0) with its. unfold clamp. change (items st0) with its.
  destruct ((len its <=? 1) && hasMore st0);
    cbn [items itemsMetadata attachedRange dispatch set_dispatched set_itemsMetadata
           set_attachedRange];
    (split; [by subst st0|]); (split; [done|]); (split; [done|]); f_equal.
Qed.

(** X20.  The first half of [updateMetadata] only appends: the records in
    the store stay as they are, one unmeasured record is added for every
    item past the store's end, carrying its position and pointing at that
    item, and doing it again adds nothing. *)
Theorem growMetadata_appends st :
  exists tail,
    itemsMetadata (growMetadata st) = itemsMetadata st ++ tail
    /\ length tail = Z.to_nat (len (items st) - len (itemsMetadata st))
    /\ (forall (k : nat) m, tail !! k = Some m ->
          m = Meta (len (itemsMetadata st) + Z.of_nat k) 0
                (js_get (items st) (len (itemsMetadata st) + Z.of_nat k)))
    /\ growMetadata (growMetadata st) = growMetadata st.
Proof.
  assert (Hidem : growMetadata (growMetadata st) = growMetadata st).
  { apply growMetadata_covered.
    destruct (growMetadata_spec st) as (g & -> & Hlen & _).
    cbn [items itemsMetadata set_itemsMetadata]. lia. }
  revert Hidem. generalize (growMetadata (growMetadata st)) as twice.
  intros twice Hidem. unfold growMetadata in *.
  destruct (Z.ltb_spec 0 (len (items st) - len (itemsMetadata st))) as [Hd|Hd].
  - eexists. split; [reflexivity|]. split; [|split; [|done]].
    + by rewrite length_imap, length_replicate.
    + intros k m Hm. rewrite list_lookup_imap in Hm.
      destruct (replicate _ _ !! k); [|done]. by injection Hm as <-.
  - exists []. rewrite app_nil_r. split; [done|]. split; [simpl; lia|].
    by split.
Qed.

(** X21.  [fill] never raises, whatever range it is asked for and whatever
    nodes are rendered, and it writes nothing but the range, the store and
    the event log. *)
Theorem fill_never_raises st (s e : Z) :
  exists st',
    fill s e st = Normal st'
    /\ items st' = items st /\ hasMore st' = hasMore st
    /\ minHeight st' = minHeight st /\ loadingItem st' = loadingItem st
    /\ isScrolling st' = isScrolling st /\ isReady st' = isReady st
    /\ element st' = element st.
Proof.
  destruct (fill_spec st s e) as (ms & Hrun & _). rewrite Hrun.
  eexists. split; [reflexivity|]. cbv zeta. by case_match.
Qed.

End Replacing.

(** X19, witness: the three items of [shown] are replaced by ten. *)
Lemma replacement_points_at_new_items_witness :
  exists st',
    itemsAssigned ten shown = Normal st'
    /\ items st' = ten
    /\ length (itemsMetadata st') = 10%nat
    /\ attachedRange st' = Range 0 1.
Proof.
  destruct (replacement_points_at_new_items ten shown)
    as (st' & Hrun & Hit & Hlen & _ & Hr); [reflexivity | unfold len; simpl; lia |].
  exists st'. split; [exact Hrun|]. split; [exact Hit|]. split; [exact Hlen|exact Hr].
Defined.

Section Placeholder.
Context {T : Type}.
Implicit Types (st : VirtualScroller T).

(** X22.  Whenever [fill] asks for more data ([hasMore] set, the requested
    end at or past [items.length]), the loading placeholder shows in the
    state it leaves: [loading] is true and [renderLoading] renders. *)
Theorem request_shows_placeholder st (s e : Z) :
  hasMore st = true -> len (items st) <= e ->
  exists st',
    fill s e st = Normal st'
    /\ loading st' = true
    /\ renderLoading st' = Some (top (loadingItem st)).
Proof.
  intros Hmore He. pose proof (len_nonneg (items st)) as Hn.
  destruct (fill_spec st s e) as (ms & Hrun & _).
  eexists. split; [exact Hrun|]. cbv zeta. rewrite Hmore.
  destruct (Z.leb_spec (len (items st)) e); [|lia]. cbn [andb].
  assert (Hloading : loading (dispatch "load-more" (Some (len (items st)))
                        (set_itemsMetadata ms (set_attachedRange (clamp st s e) st)))
                     = true).
  { unfold loading, clamp.
    cbn [hasMore items attachedRange dispatch set_dispatched set_itemsMetadata
           set_attachedRange end_].
    rewrite Hmore. apply Z.leb_le. lia. }
  split; [exact Hloading|]. unfold renderLoading. by rewrite Hloading.
Qed.

End Placeholder.

(** X22, witness: ten items, [hasMore], [fill(4, 10)]. *)
Lemma request_shows_placeholder_witness :
  exists st',
    fill 4 10 (loaded ten true blank) = Normal st'
    /\ loading st' = true
    /\ renderLoading st' = Some 0.
Proof.
  apply (request_shows_placeholder (loaded ten true blank) 4 10);
    [reflexivity | unfold len; simpl; lia].
Defined.
